(** * Echoes: the view/session state machine, its persistence slot and the
      card compositor layout

    A shallow embedding of the [Echoes] React component
    (components/Echoes.tsx), of the types of [types.ts] and of
    [generateEchoArtifact] of [services/geminiService.ts];
    [findEchoesForFeeling], a call into the model's SDK followed by
    [JSON.parse], is represented by how its promise settles.

    Conventions of the embedding.

    - A JavaScript string is the list of its UTF-16 code units.
    - The component's [useState] cells are the fields of one record
      [State]; a handler is a function on [State].  An [async] handler is
      split at its [await]: the part before it ([findEcho],
      [generateArtifact]) returns the new state and the request it issues,
      the part after it ([findEcho_settled], [generateArtifact_settled])
      is applied to whatever the state is when the promise settles.
    - [localStorage] is reduced to the one key the component uses,
      ['echoes_active_session'].
    - One event of the machine is one handler segment followed by the
      commit of its state updates and the run of the save effect
      ([commit]).  Process start ([mount]) is the first render, the two
      mount effects and the render they cause.
    - A render can throw: the result screen evaluates
      [encodeURIComponent] for its community link.  [commit], [apply]
      and [mount] describe the renders that do not throw; [step] and
      [start] say which ones do, and what is left then. *)

From Stdlib Require Import String Ascii DecimalString List NArith ZArith Bool Lia.
Import ListNotations.

(** ** JavaScript strings *)

Module JS.

Definition jsstring : Type := list N.

(** A literal of the source, all of whose characters are ASCII. *)
Definition js (s : string) : jsstring :=
  map N_of_ascii (list_ascii_of_string s).

(** [ToBoolean] on a string: only the empty string is falsy. *)
Definition truthy (s : jsstring) : bool :=
  match s with
  | [] => false
  | _ :: _ => true
  end.

(** [ToBoolean] on [string | null] and on [object | null]. *)
Definition truthy_opt (o : option jsstring) : bool :=
  match o with
  | Some s => truthy s
  | None => false
  end.

Definition present {A : Type} (o : option A) : bool :=
  match o with
  | Some _ => true
  | None => false
  end.

(** ECMAScript WhiteSpace and LineTerminator code points, the ones
    [String.prototype.trim] strips.  All of them are in the Basic
    Multilingual Plane, so each is one code unit. *)
Definition isWhiteSpace (c : N) : bool :=
  ((c =? 9) || (c =? 10) || (c =? 11) || (c =? 12) || (c =? 13)
   || (c =? 32) || (c =? 160) || (c =? 5760)
   || ((8192 <=? c) && (c <=? 8202))
   || (c =? 8232) || (c =? 8233) || (c =? 8239) || (c =? 8287)
   || (c =? 12288) || (c =? 65279))%N.

Fixpoint trimStart (s : jsstring) : jsstring :=
  match s with
  | [] => []
  | c :: r => if isWhiteSpace c then trimStart r else s
  end.

Definition trimEnd (s : jsstring) : jsstring :=
  rev (trimStart (rev s)).

Definition trim (s : jsstring) : jsstring :=
  trimEnd (trimStart s).

(** The empty or whitespace-only strings. *)
Definition blank (s : jsstring) : bool := forallb isWhiteSpace s.

(** [Array.prototype.join]. *)
Fixpoint join (sep : jsstring) (l : list jsstring) : jsstring :=
  match l with
  | [] => []
  | [x] => x
  | x :: r => x ++ sep ++ join sep r
  end.

End JS.
Import JS.

(** ** types.ts *)

Record EchoItem : Type := mkEchoItem {
  type : jsstring;
  title : jsstring;
  creator : jsstring;
  year : jsstring;
  content : jsstring
}.

Record EchoData : Type := mkEchoData {
  thematic_key : jsstring;
  color_hex : jsstring;
  echoes : list EchoItem;
  community_insight : jsstring;
  search_query : jsstring
}.

(** ** Component state *)

(** [type ViewState = 'input' | 'echo' | 'synthesizing' | 'artifact'];
    the spec calls them Input, Result, Synthesizing and Artifact. *)
Inductive ViewState : Type :=
| VInput
| VEcho
| VSynthesizing
| VArtifact.

Definition ViewState_eqb (a b : ViewState) : bool :=
  match a, b with
  | VInput, VInput | VEcho, VEcho
  | VSynthesizing, VSynthesizing | VArtifact, VArtifact => true
  | _, _ => false
  end.

Record State : Type := mkState {
  input : jsstring;
  loading : bool;
  data : option EchoData;
  error : jsstring;
  view : ViewState;
  synthesisImage : option jsstring;
  placeholderIndex : nat
}.

(** The arguments of the [useState] calls. *)
Definition initialState : State :=
  {| input := [];
     loading := false;
     data := None;
     error := [];
     view := VInput;
     synthesisImage := None;
     placeholderIndex := 0 |}.

Definition setInput (v : jsstring) (s : State) : State :=
  {| input := v; loading := loading s; data := data s; error := error s;
     view := view s; synthesisImage := synthesisImage s;
     placeholderIndex := placeholderIndex s |}.

Definition setLoading (v : bool) (s : State) : State :=
  {| input := input s; loading := v; data := data s; error := error s;
     view := view s; synthesisImage := synthesisImage s;
     placeholderIndex := placeholderIndex s |}.

Definition setData (v : option EchoData) (s : State) : State :=
  {| input := input s; loading := loading s; data := v; error := error s;
     view := view s; synthesisImage := synthesisImage s;
     placeholderIndex := placeholderIndex s |}.

Definition setError (v : jsstring) (s : State) : State :=
  {| input := input s; loading := loading s; data := data s; error := v;
     view := view s; synthesisImage := synthesisImage s;
     placeholderIndex := placeholderIndex s |}.

Definition setView (v : ViewState) (s : State) : State :=
  {| input := input s; loading := loading s; data := data s; error := error s;
     view := v; synthesisImage := synthesisImage s;
     placeholderIndex := placeholderIndex s |}.

Definition setSynthesisImage (v : option jsstring) (s : State) : State :=
  {| input := input s; loading := loading s; data := data s; error := error s;
     view := view s; synthesisImage := v;
     placeholderIndex := placeholderIndex s |}.

Definition setPlaceholderIndex (v : nat) (s : State) : State :=
  {| input := input s; loading := loading s; data := data s; error := error s;
     view := view s; synthesisImage := synthesisImage s;
     placeholderIndex := v |}.

(** ** Constants *)

Definition PLACEHOLDERS_length : nat := 14.

Definition DRIFT_CONCEPTS : list jsstring :=
  [ js "The strange comfort of being alone in a crowded room.";
    js "A longing for a home you can't return to, or that never was.";
    js "The realization that you are currently living in a memory.";
    js "The overwhelming awareness of the complexity of everyone's lives.";
    js "The desire to care less about things that mean so much.";
    js "A sudden moment of clarity in the middle of chaos.";
    js "The feeling of wanting to go home when you are already there.";
    js "Nostalgia for a conversation you haven't had yet.";
    js "The quiet sadness of a friendship slowly fading.";
    js "Finding beauty in things that are falling apart.";
    js "The anticipation of a future that feels like a memory." ].

Definition archive_silent : jsstring :=
  js "The archive is silent. Please try again.".

Definition unable_to_render : jsstring :=
  js "Unable to render artifact.".

Definition unable_to_synthesize : jsstring :=
  js "Unable to synthesize artifact visual. Try again.".

(** ** Handlers *)

(** How a promise settles. *)
Inductive Settled (A : Type) : Type :=
| Fulfilled (a : A)
| Rejected.
Arguments Fulfilled {A} a.
Arguments Rejected {A}.

(** [overrideInput || input]. *)
Definition searchTerm_of (overrideInput : option jsstring) (s : State)
  : jsstring :=
  match overrideInput with
  | Some o => if truthy o then o else input s
  | None => input s
  end.

(** [findEcho] up to its [await]: the new state and the feeling sent to
    [findEchoesForFeeling], if a request is issued at all. *)
Definition findEcho (overrideInput : option jsstring) (s : State)
  : State * option jsstring :=
  let searchTerm := searchTerm_of overrideInput s in
  if negb (truthy searchTerm) || negb (truthy (trim searchTerm)) then
    (s, None)
  else
    (setSynthesisImage None (setError [] (setLoading true s)),
     Some searchTerm).

(** [findEcho] from the settlement of [findEchoesForFeeling] on: the
    [try] body or the [catch] body, then [finally]. *)
Definition findEcho_settled (r : Settled EchoData) (s : State) : State :=
  let s1 :=
    match r with
    | Fulfilled resultData => setView VEcho (setData (Some resultData) s)
    | Rejected => setError archive_silent s
    end in
  setLoading false s1.

(** [data.echoes.map(e => `${e.title} (${e.type})`).join(', ')]. *)
Definition echoInfluences (d : EchoData) : jsstring :=
  join (js ", ")
    (map (fun e => title e ++ js " (" ++ type e ++ js ")") (echoes d)).

Definition nl : jsstring := [10%N].

Definition synthesisPrompt (d : EchoData) : jsstring :=
  nl ++ js "      Cinematic still photograph, 35mm film. "
     ++ thematic_key d ++ js ". " ++ nl
     ++ js "      Inspired by " ++ echoInfluences d ++ js ". " ++ nl
     ++ js "      Tarkovsky, Wong Kar-wai, Bela Tarr aesthetic. " ++ nl
     ++ js "      Film grain, soft focus, atmospheric, melancholic, found photograph. " ++ nl
     ++ js "      Fog, rain, golden hour light, liminal spaces, empty rooms, architecture in mist. " ++ nl
     ++ js "      NO text, NO digital look, NO people's faces." ++ nl
     ++ js "    ".

(** [generateArtifact] up to its [await]: the new state and the prompt
    sent to [generateEchoArtifact], if a request is issued. *)
Definition generateArtifact (s : State) : State * option jsstring :=
  match data s with
  | None => (s, None)
  | Some d => (setView VSynthesizing s, Some (synthesisPrompt d))
  end.

(** What follows the [await] of [generateArtifact]: the image of the
    returned URL loads ([img.onload]), fails to decode ([img.onerror]),
    or the call itself throws ([catch]). *)
Inductive Synthesis : Type :=
| ImageLoaded (imageUrl : jsstring)
| ImageError
| Thrown.

Definition generateArtifact_settled (o : Synthesis) (s : State) : State :=
  match o with
  | ImageLoaded imageUrl =>
      setView VArtifact (setSynthesisImage (Some imageUrl) s)
  | ImageError => setView VEcho (setError unable_to_render s)
  | Thrown => setView VEcho (setError unable_to_synthesize s)
  end.

(** [DRIFT_CONCEPTS[Math.floor(Math.random() * DRIFT_CONCEPTS.length)]],
    with the index drawn as argument. *)
Definition handleDrift (i : nat) (s : State) : State :=
  setInput (nth i DRIFT_CONCEPTS []) s.

Definition handleBack (s : State) : State :=
  match view s with
  | VArtifact => setView VEcho s
  | VEcho => setView VInput s
  | _ => s
  end.

(** The state updates of [handleReset]; its [localStorage.removeItem] is
    in [apply] below. *)
Definition handleReset (s : State) : State :=
  setSynthesisImage None (setView VInput (setInput [] (setData None s))).

(** The interval callback of the placeholder rotation. *)
Definition rotatePlaceholder (s : State) : State :=
  setPlaceholderIndex
    (Nat.modulo (placeholderIndex s + 1) PLACEHOLDERS_length) s.

(** ** Render guards *)

Definition renders_input (s : State) : bool := ViewState_eqb (view s) VInput.

Definition renders_echo (s : State) : bool :=
  ViewState_eqb (view s) VEcho && present (data s).

Definition renders_synthesizing (s : State) : bool :=
  ViewState_eqb (view s) VSynthesizing.

Definition renders_artifact (s : State) : bool :=
  ViewState_eqb (view s) VArtifact
  && truthy_opt (synthesisImage s) && present (data s).

(** [{error && <div ...>{error}</div>}] inside the input view. *)
Definition renders_error (s : State) : bool :=
  renders_input s && truthy (error s).

(** ** Session persistence *)

(** The object read back by [JSON.parse]: each property may be missing
    (or [null]).  [JSON.stringify] followed by [JSON.parse] is taken to
    be the identity on the four properties that are written. *)
Record Parsed : Type := mkParsed {
  p_data : option EchoData;
  p_input : option jsstring;
  p_view : option ViewState;
  p_synthesisImage : option jsstring
}.

(** What the key ['echoes_active_session'] holds when it is set: a
    string that parses to an object, or one on which the [try] block of
    the restore effect does nothing (it is empty, [JSON.parse] throws or
    the property access does). *)
Inductive Stored : Type :=
| Snapshot (parsed : Parsed)
| Unparseable.

(** [JSON.stringify({ data, input, view, synthesisImage })]. *)
Definition stringify (s : State) : Stored :=
  Snapshot {| p_data := data s;
              p_input := Some (input s);
              p_view := Some (view s);
              p_synthesisImage := synthesisImage s |}.

(** The restore effect, on the state of the first render. *)
Definition restoreSession (savedSession : option Stored) (s : State) : State :=
  match savedSession with
  | Some (Snapshot parsed) =>
      match p_data parsed with
      | Some d =>
          let s1 := setData (Some d) s in
          let s2 :=
            setInput (match p_input parsed with
                      | Some i => if truthy i then i else []
                      | None => []
                      end) s1 in
          let s3 :=
            setView (match p_view parsed with
                     | Some v => v
                     | None => VEcho
                     end) s2 in
          match p_view parsed with
          | Some VArtifact =>
              if truthy_opt (p_synthesisImage parsed)
              then setSynthesisImage (p_synthesisImage parsed) s3
              else s3
          | _ => s3
          end
      | None => s
      end
  | Some Unparseable => s
  | None => s
  end.

(** The component together with its environment: the storage slot and
    the number of retrieval and synthesis promises not yet settled. *)
Record World : Type := mkWorld {
  st : State;
  localStorage : option Stored;
  retrievals : nat;
  syntheses : nat
}.

(** The save effect: [if (data) localStorage.setItem(...)]. *)
Definition saveSession (w : World) : World :=
  match data (st w) with
  | Some _ =>
      {| st := st w;
         localStorage := Some (stringify (st w));
         retrievals := retrievals w;
         syntheses := syntheses w |}
  | None => w
  end.

(** Commit of a handler segment: the render and the effects after it,
    for a render that does not throw ([render_throws] and [step] below
    have the other case, in which no effect runs).
    The save effect is run at every commit; when none of its
    dependencies changed React skips it, and then it would write what
    the slot already holds ([saveSession_idempotent], [slot_in_step]). *)
Definition commit (w : World) : World := saveSession w.

(** Process start on a given storage. *)
Definition mount (storage : option Stored) : World :=
  commit {| st := restoreSession storage initialState;
            localStorage := storage;
            retrievals := 0;
            syntheses := 0 |}.

(** ** Events *)

Inductive Event : Type :=
| EChange (text : jsstring)            (* typing in the input box *)
| EDrift (i : nat)                     (* the Drift button *)
| ESubmit                              (* Enter, the arrow, Reshuffle: findEcho() *)
| ERetrieval (r : Settled EchoData)    (* findEchoesForFeeling settles *)
| ESynthesize                          (* Sit with this: generateArtifact() *)
| ESynthesis (o : Synthesis)           (* generateEchoArtifact / the image settles *)
| EReset                               (* the logo, Trace Another *)
| EBack                                (* the back arrow *)
| ETick.                               (* the placeholder interval *)

Definition with_st (s : State) (w : World) : World :=
  {| st := s; localStorage := localStorage w;
     retrievals := retrievals w; syntheses := syntheses w |}.

Definition handle (e : Event) (w : World) : World :=
  match e with
  | EChange text => with_st (setInput text (st w)) w
  | EDrift i => with_st (handleDrift i (st w)) w
  | ESubmit =>
      let '(s, request) := findEcho None (st w) in
      {| st := s; localStorage := localStorage w;
         retrievals := (if present request then 1 else 0) + retrievals w;
         syntheses := syntheses w |}
  | ERetrieval r =>
      {| st := findEcho_settled r (st w); localStorage := localStorage w;
         retrievals := pred (retrievals w); syntheses := syntheses w |}
  | ESynthesize =>
      let '(s, request) := generateArtifact (st w) in
      {| st := s; localStorage := localStorage w;
         retrievals := retrievals w;
         syntheses := (if present request then 1 else 0) + syntheses w |}
  | ESynthesis o =>
      {| st := generateArtifact_settled o (st w);
         localStorage := localStorage w;
         retrievals := retrievals w; syntheses := pred (syntheses w) |}
  | EReset =>
      {| st := handleReset (st w); localStorage := None;
         retrievals := retrievals w; syntheses := syntheses w |}
  | EBack => with_st (handleBack (st w)) w
  | ETick => with_st (rotatePlaceholder (st w)) w
  end.

Definition apply (e : Event) (w : World) : World := commit (handle e w).

(** When the event can happen: the control is rendered and not disabled,
    or a promise is pending. *)
Definition enabled (w : World) (e : Event) : bool :=
  let s := st w in
  match e with
  | EChange _ => renders_input s
  | EDrift i => renders_input s && (i <? length DRIFT_CONCEPTS)%nat
  | ESubmit => renders_input s || (renders_echo s && negb (loading s))
  | ERetrieval _ => (0 <? retrievals w)%nat
  | ESynthesize => renders_echo s
  | ESynthesis _ => (0 <? syntheses w)%nat
  | EReset => true
  | EBack => negb (ViewState_eqb (view s) VInput)
  | ETick => renders_input s
  end.

Fixpoint run (es : list Event) (w : World) : World :=
  match es with
  | [] => w
  | e :: r => run r (apply e w)
  end.

Fixpoint all_enabled (es : list Event) (w : World) : bool :=
  match es with
  | [] => true
  | e :: r => enabled w e && all_enabled r (apply e w)
  end.

(** The views the machine is in after each event of a run. *)
Fixpoint views (es : list Event) (w : World) : list ViewState :=
  match es with
  | [] => []
  | e :: r => view (st (apply e w)) :: views r (apply e w)
  end.

(** The worlds the program reaches: a first start on empty storage,
    then events, and restarts on whatever the slot holds. *)
Inductive reachable : World -> Prop :=
| reach_first : reachable (mount None)
| reach_event (w : World) (e : Event) :
    reachable w -> enabled w e = true -> reachable (apply e w)
| reach_restart (w : World) :
    reachable w -> reachable (mount (localStorage w)).

(** ** Card compositor *)

Module Card.

Local Open Scope Z_scope.

Definition width : Z := 1200.

Definition tracklistHeight (d : EchoData) : Z :=
  150 + Z.of_nat (length (echoes d)) * 80.

Definition height (d : EchoData) : Z := width + tracklistHeight d.

(** Text handed to [fillText]; the case mappings are left symbolic. *)
Inductive Text : Type :=
| Lit (s : jsstring)
| UpperCase (s : jsstring).

(** The calls on the canvas and the document that size, draw and
    export; the style assignments between them are left out. *)
Inductive Op : Type :=
| CreateCanvas
| SetWidth (w : Z)
| SetHeight (h : Z)
| FillRect (x y w h : Z)
| LoadImage (src : jsstring)
| DrawImage (x y w h : Z)
| FillText (t : Text) (x y : Z)
| DownloadComposite (key : jsstring)
| DownloadRaw (href : jsstring).

Definition is_size (o : Op) : bool :=
  match o with
  | SetWidth _ | SetHeight _ => true
  | _ => false
  end.

Definition is_draw (o : Op) : bool :=
  match o with
  | FillRect _ _ _ _ | DrawImage _ _ _ _ | FillText _ _ _ => true
  | _ => false
  end.

Fixpoint startsWith (p s : jsstring) : bool :=
  match p, s with
  | [], _ => true
  | a :: p', b :: s' => N.eqb a b && startsWith p' s'
  | _ :: _, [] => false
  end.

(** The [src] given to the image: a cache-buster on http URLs. *)
Definition imageSrc (now : jsstring) (synthesisImage : jsstring) : jsstring :=
  if startsWith (js "http") synthesisImage then
    let separator :=
      if existsb (N.eqb 63) synthesisImage then js "&" else js "?" in
    synthesisImage ++ separator ++ js "cb=" ++ now
  else synthesisImage.

(** The [forEach] over the echoes, threading [currentY]. *)
Fixpoint tracklist (es : list EchoItem) (currentY : Z) : list Op :=
  match es with
  | [] => []
  | echo :: r =>
      FillText (UpperCase (title echo)) 60 currentY
      :: FillText (Lit (creator echo ++ js " / " ++ year echo)) 60 (currentY + 35)
      :: tracklist r (currentY + 80)
  end.

(** [handleDownloadCard] as the trace of its calls.  [ctx_ok]:
    [getContext] returned a context; [image_ok]: the image loaded;
    [export_ok]: [toDataURL] did not throw; [now] and [today] are the
    renderings of [Date.now()] and of the current date. *)
Definition handleDownloadCard (ctx_ok image_ok export_ok : bool)
    (now today : jsstring) (s : State) : list Op :=
  match synthesisImage s, data s with
  | Some image, Some d =>
      if negb (truthy image) then []
      else if negb ctx_ok then [CreateCanvas]
      else
        let tracklistHeight := 150 + Z.of_nat (length (echoes d)) * 80 in
        let height := width + tracklistHeight in
        let sized :=
          [CreateCanvas; SetWidth width; SetHeight height;
           FillRect 0 0 width height; LoadImage (imageSrc now image)] in
        if negb image_ok then sized ++ [DownloadRaw image]
        else
          let contentStartY := width + 80 in
          let drawn :=
            sized
            ++ [DrawImage 0 0 width width;
                FillText (Lit (thematic_key d)) 60 contentStartY]
            ++ tracklist (echoes d) (contentStartY + 80)
            ++ [FillText (Lit (js "ECHOES ARCHIVE " ++ [8226%N] ++ js " " ++ today))
                  (width / 2) (height - 40)] in
          if export_ok then drawn ++ [DownloadComposite (thematic_key d)]
          else drawn ++ [DownloadRaw image]
  | _, _ => []
  end.

(** The height the canvas has when drawing starts: the last
    [SetHeight] before the first drawing call. *)
Fixpoint heightAtFirstDraw (cur : option Z) (ops : list Op) : option Z :=
  match ops with
  | [] => None
  | SetHeight h :: r => heightAtFirstDraw (Some h) r
  | o :: r => if is_draw o then cur else heightAtFirstDraw cur r
  end.

(** No call resizes the canvas once a drawing call has been made. *)
Fixpoint noResizeAfterDraw (drawn : bool) (ops : list Op) : bool :=
  match ops with
  | [] => true
  | o :: r =>
      if is_size o then negb drawn && noResizeAfterDraw drawn r
      else noResizeAfterDraw (drawn || is_draw o) r
  end.

End Card.

(** ** The invariant of the slot *)

(** The slot is in step with the state: it holds the serialization of
    the current state when a result is held, and nothing otherwise. *)
Definition slot_in_step (w : World) : Prop :=
  localStorage w =
  match data (st w) with
  | Some _ => Some (stringify (st w))
  | None => None
  end.

(** ** Sample sessions *)

Definition sample_item : EchoItem :=
  {| type := js "Poetry"; title := js "Dusk"; creator := js "Anon";
     year := js "1901"; content := js "the light goes" |}.

Definition sample_data : EchoData :=
  {| thematic_key := js "Entropy"; color_hex := js "#e0f7fa";
     echoes := [sample_item; sample_item];
     community_insight := js "many feel this at night";
     search_query := js "evening quiet" |}.

Definition sample_url : jsstring := js "https://image.pollinations.ai/prompt/x".

(** One query and one synthesis, from a first start. *)
Definition to_artifact : list Event :=
  [EChange (js "3 AM"); ESubmit; ERetrieval (Fulfilled sample_data);
   ESynthesize; ESynthesis (ImageLoaded sample_url)].

(** ... then back to the result screen, which still holds the image. *)
Definition back_in_echo : World := run (to_artifact ++ [EBack]) (mount None).

(** ... and back to the input screen. *)
Definition back_in_input : World :=
  run (to_artifact ++ [EBack; EBack]) (mount None).

(** Four white-space characters typed into the box: space, tab,
    no-break space, line feed. *)
Definition typed_blanks : World :=
  run [EChange [32; 9; 160; 10]%N] (mount None).

(** A first query whose retrieval is rejected. *)
Definition after_failed_query : World :=
  run [EChange (js "3 AM"); ESubmit; ERetrieval Rejected] (mount None).

(** A retrieval is in flight when the user resets. *)
Definition reset_in_flight : World :=
  run [EChange (js "3 AM"); ESubmit; EReset] (mount None).

(** A snapshot that names the artifact screen but carries no image. *)
Definition imageless_artifact : Parsed :=
  {| p_data := Some sample_data;
     p_input := Some (js "3 AM");
     p_view := Some VArtifact;
     p_synthesisImage := None |}.

(** A first query whose retrieval is fulfilled. *)
Definition first_result : World :=
  run [EChange (js "3 AM"); ESubmit; ERetrieval (Fulfilled sample_data)]
      (mount None).

(** The state on the artifact screen after one query and one synthesis. *)
Definition artifact_shown : State := st (run to_artifact (mount None)).

(** ** services/geminiService.ts: the image URL *)

Module URI.

(** uriUnescaped of ECMAScript: letters, digits and [-_.!~*'()], the
    code units [encodeURIComponent] copies. *)
Definition unreserved (c : N) : bool :=
  (((65 <=? c) && (c <=? 90)) || ((97 <=? c) && (c <=? 122))
   || ((48 <=? c) && (c <=? 57))
   || (c =? 45) || (c =? 95) || (c =? 46) || (c =? 33) || (c =? 126)
   || (c =? 42) || (c =? 39) || (c =? 40) || (c =? 41))%N.

Definition isLeadSurrogate (c : N) : bool := ((55296 <=? c) && (c <=? 56319))%N.

Definition isTrailSurrogate (c : N) : bool := ((56320 <=? c) && (c <=? 57343))%N.

(** The code point of a surrogate pair. *)
Definition pairCodePoint (lead trail : N) : N :=
  ((lead - 55296) * 1024 + (trail - 56320) + 65536)%N.

(** The UTF-8 octets of a code point. *)
Definition utf8 (cp : N) : list N :=
  (if cp <? 128 then [cp]
   else if cp <? 2048 then [192 + cp / 64; 128 + cp mod 64]
   else if cp <? 65536 then
     [224 + cp / 4096; 128 + (cp / 64) mod 64; 128 + cp mod 64]
   else
     [240 + cp / 262144; 128 + (cp / 4096) mod 64;
      128 + (cp / 64) mod 64; 128 + cp mod 64])%N.

(** One upper-case hexadecimal digit. *)
Definition hexDigit (n : N) : N := (if n <? 10 then 48 + n else 55 + n)%N.

(** An octet as ['%XX']. *)
Definition escapeOctet (b : N) : jsstring :=
  [37%N; hexDigit (b / 16); hexDigit (b mod 16)].

Definition escapeCodePoint (cp : N) : jsstring :=
  flat_map escapeOctet (utf8 cp).

(** [encodeURIComponent]: [None] is the URIError thrown on a surrogate
    that is not part of a pair. *)
Fixpoint encodeURIComponent (s : jsstring) : option jsstring :=
  match s with
  | [] => Some []
  | c :: r =>
      if unreserved c then option_map (cons c) (encodeURIComponent r)
      else if isLeadSurrogate c then
        match r with
        | d :: r' =>
            if isTrailSurrogate d then
              option_map (app (escapeCodePoint (pairCodePoint c d)))
                         (encodeURIComponent r')
            else None
        | [] => None
        end
      else if isTrailSurrogate c then None
      else option_map (app (escapeCodePoint c)) (encodeURIComponent r)
  end.

(** [String.prototype.isWellFormed]: no surrogate outside a pair. *)
Fixpoint isWellFormed (s : jsstring) : bool :=
  match s with
  | [] => true
  | c :: r =>
      if isLeadSurrogate c then
        match r with
        | d :: r' => isTrailSurrogate d && isWellFormed r'
        | [] => false
        end
      else negb (isTrailSurrogate c) && isWellFormed r
  end.

(** The strings of UTF-16 code units. *)
Definition codeUnits (s : jsstring) : bool := forallb (fun c => c <? 65536)%N s.

(** What an encoded component is made of. *)
Definition escaped (c : N) : bool := (unreserved c || (c =? 37))%N.

End URI.

(** The decimal rendering of a non-negative integer, as a template
    literal renders a number. *)
Definition decimal (n : N) : jsstring :=
  js (NilZero.string_of_uint (N.to_uint n)).

Definition artifact_url_prefix : jsstring :=
  js "https://image.pollinations.ai/prompt/".

Definition artifact_url_query (seed : N) : jsstring :=
  js "?width=1000&height=1000&nologo=true&seed=" ++ decimal seed
  ++ js "&model=flux".

(** [generateEchoArtifact], with the value of
    [Math.floor(Math.random() * 1000000)] as argument; [None] when
    [encodeURIComponent] throws, which rejects the promise. *)
Definition generateEchoArtifact (prompt : jsstring) (seed : N)
  : option jsstring :=
  option_map (fun encoded => artifact_url_prefix ++ encoded ++ artifact_url_query seed)
             (URI.encodeURIComponent prompt).

(** How the promise awaited by [generateArtifact] settles once the image
    of the URL has loaded or not. *)
Definition synthesis_of (prompt : jsstring) (seed : N) (image_loads : bool)
  : Synthesis :=
  match generateEchoArtifact prompt seed with
  | Some imageUrl => if image_loads then ImageLoaded imageUrl else ImageError
  | None => Thrown
  end.

(** ** More of the component *)

(** [disabled={loading || !input.trim()}] on the arrow of the input view. *)
Definition arrow_disabled (s : State) : bool :=
  loading s || negb (truthy (trim (input s))).

(** No screen at all: none of the four view blocks is rendered. *)
Definition renders_nothing (s : State) : bool :=
  negb (renders_input s || renders_echo s || renders_synthesizing s
        || renders_artifact s).

(** Events whose image URL, if they carry one, is not the empty string. *)
Definition url_truthy (e : Event) : bool :=
  match e with
  | ESynthesis (ImageLoaded imageUrl) => truthy imageUrl
  | _ => true
  end.

(** The worlds reached when every image that loads has a non-empty URL,
    as the URLs of [generateEchoArtifact] are. *)
Inductive reachable_served : World -> Prop :=
| served_first : reachable_served (mount None)
| served_event (w : World) (e : Event) :
    reachable_served w -> enabled w e = true -> url_truthy e = true ->
    reachable_served (apply e w)
| served_restart (w : World) :
    reachable_served w -> reachable_served (mount (localStorage w)).

(** What a start on the slot written for state [s] restores. *)
Definition restored_from (s : State) : State :=
  {| input := input s;
     loading := false;
     data := data s;
     error := [];
     view := view s;
     synthesisImage :=
       match view s with
       | VArtifact =>
           if truthy_opt (synthesisImage s) then synthesisImage s else None
       | _ => None
       end;
     placeholderIndex := 0 |}.

(** ** Observations on a compositor trace *)

Definition text_baselines (ops : list Card.Op) : list Z :=
  flat_map (fun o => match o with
                     | Card.FillText _ _ y => [y]
                     | _ => []
                     end) ops.

Definition drawn_titles (ops : list Card.Op) : list jsstring :=
  flat_map (fun o => match o with
                     | Card.FillText (Card.UpperCase t) _ _ => [t]
                     | _ => []
                     end) ops.

Definition downloads (ops : list Card.Op) : list Card.Op :=
  filter (fun o => match o with
                   | Card.DownloadComposite _ | Card.DownloadRaw _ => true
                   | _ => false
                   end) ops.

(** [p] occurs in [s] as a contiguous run of code units. *)
Definition occurs_in (p s : jsstring) : Prop :=
  exists before after : jsstring, s = before ++ p ++ after.

(** The characters that delimit the parts of a URL. *)
Definition url_delimiter (c : N) : bool :=
  ((c =? 63) || (c =? 38) || (c =? 35) || (c =? 47) || (c =? 61))%N.

(** The texts of a result that go into the synthesis prompt are
    well-formed. *)
Definition prompt_texts_wellFormed (d : EchoData) : bool :=
  URI.isWellFormed (thematic_key d)
  && forallb (fun e => URI.isWellFormed (title e) && URI.isWellFormed (type e))
             (echoes d).

Definition is_reset (e : Event) : bool :=
  match e with
  | EReset => true
  | _ => false
  end.

(** A first query is answered and a synthesis is under way. *)
Definition synthesis_pending : World :=
  run [EChange (js "3 AM"); ESubmit; ERetrieval (Fulfilled sample_data);
       ESynthesize] (mount None).

(** The link of the community card:
    [`https://www.reddit.com/search/?q=${encodeURIComponent(data.search_query || input)}`];
    [None] when [encodeURIComponent] throws while rendering. *)
Definition reddit_url_prefix : jsstring :=
  js "https://www.reddit.com/search/?q=".

Definition redditTerm (d : EchoData) (input : jsstring) : jsstring :=
  if truthy (search_query d) then search_query d else input.

Definition redditHref (d : EchoData) (input : jsstring) : option jsstring :=
  option_map (app reddit_url_prefix)
             (URI.encodeURIComponent (redditTerm d input)).

(** ** Renders that throw *)

(** The one expression of the render that can throw:
    [encodeURIComponent(data.search_query || input)] in the result
    screen, evaluated whenever that screen is rendered. *)
Definition render_throws (s : State) : bool :=
  match data s with
  | Some d =>
      ViewState_eqb (view s) VEcho && negb (present (redditHref d (input s)))
  | None => false
  end.

(** What an event leaves: a world whose render succeeded and whose
    effects ran, or, when the render threw, an unmounted tree and the
    storage as the handler left it (no effect runs). *)
Inductive Outcome : Type :=
| Live (w : World)
| Crashed (storage : option Stored).

Definition step (e : Event) (w : World) : Outcome :=
  let w' := handle e w in
  if render_throws (st w') then Crashed (localStorage w')
  else Live (commit w').

(** Process start: the render of the restored state may throw as well,
    before the save effect. *)
Definition start (storage : option Stored) : Outcome :=
  if render_throws (restoreSession storage initialState)
  then Crashed storage
  else Live (mount storage).

(** The worlds that are on screen: reached by events whose render does
    not throw and by starts that do not throw, on the slot a live world
    or a crash left. *)
Inductive live : World -> Prop :=
| live_first : live (mount None)
| live_step (w : World) (e : Event) (w' : World) :
    live w -> enabled w e = true -> step e w = Live w' -> live w'
| live_restart (w w' : World) :
    live w -> start (localStorage w) = Live w' -> live w'
| live_after_crash (w : World) (e : Event) (storage : option Stored)
    (w' : World) :
    live w -> enabled w e = true -> step e w = Crashed storage ->
    start storage = Live w' -> live w'.

(** A result whose search query is a lone lead surrogate. *)
Definition unpaired_query_data : EchoData :=
  {| thematic_key := js "Entropy"; color_hex := js "#e0f7fa";
     echoes := [sample_item];
     community_insight := js "many feel this at night";
     search_query := [55357%N] |}.

(** A result with an empty search query. *)
Definition no_query_data : EchoData :=
  {| thematic_key := js "Entropy"; color_hex := js "#e0f7fa";
     echoes := [sample_item];
     community_insight := js "many feel this at night";
     search_query := [] |}.

(** A first query is typed and submitted. *)
Definition query_pending : World :=
  run [EChange (js "3 AM"); ESubmit] (mount None).

(** The view changes an event is able to make. *)
Definition view_change_allowed (e : Event) (before after : ViewState) : bool :=
  match e with
  | ERetrieval (Fulfilled _) => ViewState_eqb after VEcho
  | ESynthesize =>
      ViewState_eqb before VEcho && ViewState_eqb after VSynthesizing
  | ESynthesis (ImageLoaded _) => ViewState_eqb after VArtifact
  | ESynthesis _ => ViewState_eqb after VEcho
  | EReset => ViewState_eqb after VInput
  | EBack =>
      (ViewState_eqb before VArtifact && ViewState_eqb after VEcho)
      || (ViewState_eqb before VEcho && ViewState_eqb after VInput)
  | _ => false
  end.

(** * Properties *)

(** ** Strings *)

Lemma trimStart_nil_iff (s : jsstring) :
  trimStart s = [] <-> blank s = true.
Proof.
  induction s as [|c r IH]; simpl.
  - split; reflexivity.
  - destruct (isWhiteSpace c); simpl.
    + exact IH.
    + split; discriminate.
Qed.

Lemma trimStart_head (s : jsstring) (c : N) (r : jsstring) :
  trimStart s = c :: r -> isWhiteSpace c = false.
Proof.
  induction s as [|a t IH]; simpl.
  - discriminate.
  - destruct (isWhiteSpace a) eqn:Ha.
    + exact IH.
    + intros E. injection E as -> _. exact Ha.
Qed.

Lemma blank_rev (s : jsstring) : blank (rev s) = blank s.
Proof.
  unfold blank. induction s as [|c r IH]; simpl.
  - reflexivity.
  - rewrite forallb_app, IH. simpl. rewrite andb_true_r. apply andb_comm.
Qed.

(** [!s.trim()] holds exactly for the empty and whitespace-only strings. *)
Lemma trim_nil_iff (s : jsstring) : trim s = [] <-> blank s = true.
Proof.
  unfold trim, trimEnd. split.
  - intros E.
    assert (E' : trimStart (rev (trimStart s)) = []).
    { rewrite <- (rev_involutive (trimStart _)). rewrite E. reflexivity. }
    apply trimStart_nil_iff in E'. rewrite blank_rev in E'.
    destruct (trimStart s) as [|c r] eqn:Es.
    + apply trimStart_nil_iff. exact Es.
    + apply trimStart_head in Es. simpl in E'. rewrite Es in E'. discriminate.
  - intros B. apply trimStart_nil_iff in B. rewrite B. reflexivity.
Qed.

Lemma truthy_trim (s : jsstring) : truthy (trim s) = negb (blank s).
Proof.
  destruct (blank s) eqn:B.
  - apply trim_nil_iff in B. rewrite B. reflexivity.
  - destruct (trim s) eqn:T.
    + apply trim_nil_iff in T. congruence.
    + reflexivity.
Qed.

(** The guard of [findEcho], [!searchTerm || !searchTerm.trim()], is the
    blank test. *)
Lemma findEcho_guard (s : jsstring) :
  negb (truthy s) || negb (truthy (trim s)) = blank s.
Proof.
  rewrite truthy_trim, negb_involutive.
  destruct s; simpl; [reflexivity|]. reflexivity.
Qed.

Lemma findEcho_blank (s : State) :
  blank (input s) = true -> findEcho None s = (s, None).
Proof.
  intros B. unfold findEcho, searchTerm_of.
  rewrite findEcho_guard, B. reflexivity.
Qed.

Lemma findEcho_not_blank (s : State) :
  blank (input s) = false ->
  findEcho None s =
  (setSynthesisImage None (setError [] (setLoading true s)), Some (input s)).
Proof.
  intros B. unfold findEcho, searchTerm_of.
  rewrite findEcho_guard, B. reflexivity.
Qed.

(** ** The storage slot follows the held result *)

Lemma saveSession_st (w : World) : st (saveSession w) = st w.
Proof. unfold saveSession. destruct (data (st w)); reflexivity. Qed.

Lemma saveSession_retrievals (w : World) :
  retrievals (saveSession w) = retrievals w.
Proof. unfold saveSession. destruct (data (st w)); reflexivity. Qed.

Lemma saveSession_syntheses (w : World) :
  syntheses (saveSession w) = syntheses w.
Proof. unfold saveSession. destruct (data (st w)); reflexivity. Qed.

Lemma saveSession_slot_some (w : World) (d : EchoData) :
  data (st w) = Some d ->
  localStorage (saveSession w) = Some (stringify (st w)).
Proof. intros E. unfold saveSession. rewrite E. reflexivity. Qed.

Lemma saveSession_slot_none (w : World) :
  data (st w) = None -> localStorage (saveSession w) = localStorage w.
Proof. intros E. unfold saveSession. rewrite E. reflexivity. Qed.

(** Running the save effect when the slot is in step writes nothing new:
    skipping it on unchanged dependencies makes no difference. *)
Lemma saveSession_idempotent (w : World) :
  slot_in_step w -> saveSession w = w.
Proof.
  unfold slot_in_step, saveSession. destruct w as [s l r y]; simpl.
  destruct (data s); intros ->; reflexivity.
Qed.

Lemma apply_st (e : Event) (w : World) : st (apply e w) = st (handle e w).
Proof. apply saveSession_st. Qed.

Lemma handle_slot (e : Event) (w : World) :
  localStorage (handle e w) =
  match e with
  | EReset => None
  | _ => localStorage w
  end.
Proof.
  destruct e; simpl; try reflexivity.
  - destruct (findEcho None (st w)); reflexivity.
  - destruct (generateArtifact (st w)); reflexivity.
Qed.

(** Only [handleReset] clears the result. *)
Lemma handle_keeps_data (e : Event) (w : World) :
  e <> EReset -> data (st w) <> None -> data (st (handle e w)) <> None.
Proof.
  intros Hne Hd. destruct e; simpl; try exact Hd; try congruence.
  - unfold findEcho.
    destruct (negb (truthy (searchTerm_of None (st w)))
              || negb (truthy (trim (searchTerm_of None (st w))))); exact Hd.
  - destruct r; simpl; [discriminate | exact Hd].
  - unfold generateArtifact. destruct (data (st w)) eqn:E; simpl; congruence.
  - destruct o; exact Hd.
  - unfold handleBack. destruct (view (st w)); exact Hd.
Qed.

Lemma commit_in_step (w : World) :
  (data (st w) = None -> localStorage w = None) ->
  slot_in_step (commit w).
Proof.
  intros H. unfold slot_in_step, commit.
  rewrite saveSession_st.
  destruct (data (st w)) as [d|] eqn:E.
  - apply (saveSession_slot_some w d E).
  - rewrite (saveSession_slot_none w E). auto.
Qed.

Lemma apply_in_step (e : Event) (w : World) :
  slot_in_step w -> slot_in_step (apply e w).
Proof.
  intros I. apply commit_in_step. intros Hnone.
  rewrite handle_slot. destruct e; try reflexivity;
    (destruct (data (st w)) eqn:E;
     [ exfalso; refine (handle_keeps_data _ w _ _ Hnone);
       [discriminate | rewrite E; discriminate]
     | unfold slot_in_step in I; rewrite E in I; exact I ]).
Qed.

Lemma restoreSession_data (storage : option Stored) :
  data (restoreSession storage initialState) =
  match storage with
  | Some (Snapshot parsed) => p_data parsed
  | _ => None
  end.
Proof.
  destruct storage as [[parsed|]|]; simpl; try reflexivity.
  destruct (p_data parsed) as [d|]; simpl; [|reflexivity].
  destruct (p_view parsed) as [[]|]; simpl; try reflexivity.
  destruct (truthy_opt (p_synthesisImage parsed)); reflexivity.
Qed.

Lemma mount_in_step (w : World) :
  slot_in_step w -> slot_in_step (mount (localStorage w)).
Proof.
  intros I. apply commit_in_step. simpl.
  rewrite restoreSession_data. unfold slot_in_step in I. rewrite I.
  destruct (data (st w)) eqn:E; simpl; [|reflexivity].
  rewrite E. discriminate.
Qed.

Lemma reachable_in_step (w : World) : reachable w -> slot_in_step w.
Proof.
  induction 1 as [|w e _ IH _|w _ IH].
  - reflexivity.
  - apply apply_in_step, IH.
  - apply mount_in_step, IH.
Qed.

Lemma reachable_run (es : list Event) (w : World) :
  reachable w -> all_enabled es w = true -> reachable (run es w).
Proof.
  revert w. induction es as [|e r IH]; simpl; intros w Hw Hen.
  - exact Hw.
  - apply andb_true_iff in Hen as [He Hr].
    apply IH; [apply reach_event; assumption | exact Hr].
Qed.

(** ** The sample sessions are reachable *)

Lemma back_in_echo_reachable : reachable back_in_echo.
Proof. apply reachable_run; [apply reach_first | reflexivity]. Qed.

Lemma back_in_input_reachable : reachable back_in_input.
Proof. apply reachable_run; [apply reach_first | reflexivity]. Qed.

(** ** What one event does to the state *)

Lemma st_submit (w : World) :
  st (apply ESubmit w) = fst (findEcho None (st w)).
Proof.
  rewrite apply_st. simpl. destruct (findEcho None (st w)); reflexivity.
Qed.

Lemma retrievals_submit (w : World) :
  retrievals (apply ESubmit w) =
  (if present (snd (findEcho None (st w))) then 1 else 0) + retrievals w.
Proof.
  unfold apply, commit. rewrite saveSession_retrievals. simpl.
  destruct (findEcho None (st w)); reflexivity.
Qed.

Lemma st_retrieval (r : Settled EchoData) (w : World) :
  st (apply (ERetrieval r) w) = findEcho_settled r (st w).
Proof. rewrite apply_st. reflexivity. Qed.

Lemma st_synthesize (w : World) :
  st (apply ESynthesize w) = fst (generateArtifact (st w)).
Proof.
  rewrite apply_st. simpl. destruct (generateArtifact (st w)); reflexivity.
Qed.

Lemma syntheses_synthesize (w : World) :
  syntheses (apply ESynthesize w) =
  (if present (snd (generateArtifact (st w))) then 1 else 0) + syntheses w.
Proof.
  unfold apply, commit. rewrite saveSession_syntheses. simpl.
  destruct (generateArtifact (st w)); reflexivity.
Qed.

Lemma st_synthesis (o : Synthesis) (w : World) :
  st (apply (ESynthesis o) w) = generateArtifact_settled o (st w).
Proof. rewrite apply_st. reflexivity. Qed.

Lemma st_reset (w : World) : st (apply EReset w) = handleReset (st w).
Proof. rewrite apply_st. reflexivity. Qed.

Lemma slot_reset (w : World) : localStorage (apply EReset w) = None.
Proof.
  unfold apply, commit. rewrite saveSession_slot_none; reflexivity.
Qed.

(** A retrieval that is issued and then rejected, as one state update. *)
Lemma st_submit_rejected (w : World) :
  blank (input (st w)) = false ->
  st (apply (ERetrieval Rejected) (apply ESubmit w)) =
  {| input := input (st w);
     loading := false;
     data := data (st w);
     error := archive_silent;
     view := view (st w);
     synthesisImage := None;
     placeholderIndex := placeholderIndex (st w) |}.
Proof.
  intros B. rewrite st_retrieval, st_submit, (findEcho_not_blank _ B).
  reflexivity.
Qed.

(** ** Empty and whitespace-only input *)

(** C9. Submitting when the input text is empty or consists of white
    space only does nothing: [findEcho] returns the state it was given
    and issues no request, and the whole world (state, storage slot,
    pending promises) is the one before the submit. *)
Theorem blank_submit_is_noop (w : World) :
  reachable w ->
  blank (input (st w)) = true ->
  findEcho None (st w) = (st w, None) /\ apply ESubmit w = w.
Proof.
  intros R B. pose proof (findEcho_blank (st w) B) as F.
  split; [exact F|].
  unfold apply, commit. simpl. rewrite F. simpl.
  pose proof (reachable_in_step w R) as I.
  destruct w as [s l r y]. simpl in *. apply saveSession_idempotent. exact I.
Qed.

Lemma blank_submit_is_noop_witness :
  blank (input (st typed_blanks)) = true
  /\ findEcho None (st typed_blanks) = (st typed_blanks, None)
  /\ apply ESubmit typed_blanks = typed_blanks.
Proof.
  split; [reflexivity|].
  apply (blank_submit_is_noop typed_blanks).
  - apply reachable_run; [apply reach_first | reflexivity].
  - reflexivity.
Defined.

(** ** Failed retrieval *)

(** C1, as stated, fails: after query, synthesis and two steps back the
    machine is on the input screen and still holds the artifact image; a
    submit whose retrieval is rejected leaves the view, the result and
    the input text alone but drops the image. *)
Lemma submit_failure_drops_image :
  reachable back_in_input
  /\ view (st back_in_input) = VInput
  /\ blank (input (st back_in_input)) = false
  /\ all_enabled [ESubmit; ERetrieval Rejected] back_in_input = true
  /\ synthesisImage (st back_in_input) = Some sample_url
  /\ synthesisImage (st (run [ESubmit; ERetrieval Rejected] back_in_input))
     <> synthesisImage (st back_in_input).
Proof.
  split; [exact back_in_input_reachable|].
  repeat split; try reflexivity. discriminate.
Qed.

(** C1, amended. A submit of a non-blank input from the input screen
    issues one retrieval; when that is rejected the machine is still on
    the input screen, the error is the generic message, the result and
    the input text are the ones before the submit, and the artifact
    image is cleared. *)
Theorem submit_failure_from_input (w : World) :
  view (st w) = VInput ->
  blank (input (st w)) = false ->
  let w1 := apply ESubmit w in
  let w2 := apply (ERetrieval Rejected) w1 in
  enabled w ESubmit = true
  /\ retrievals w1 = S (retrievals w)
  /\ view (st w1) = VInput
  /\ view (st w2) = VInput
  /\ error (st w2) = archive_silent
  /\ data (st w2) = data (st w)
  /\ input (st w2) = input (st w)
  /\ synthesisImage (st w2) = None
  /\ loading (st w2) = false.
Proof.
  intros V B w1 w2. subst w1 w2.
  rewrite (st_submit_rejected w B), retrievals_submit, st_submit.
  rewrite (findEcho_not_blank _ B). simpl.
  unfold enabled, renders_input. rewrite V. simpl.
  repeat split; reflexivity.
Qed.

Lemma submit_failure_from_input_witness :
  let w2 := run [ESubmit; ERetrieval Rejected] back_in_input in
  view (st w2) = VInput
  /\ error (st w2) = archive_silent
  /\ data (st w2) = Some sample_data
  /\ input (st w2) = js "3 AM"
  /\ synthesisImage (st w2) = None.
Proof.
  destruct (submit_failure_from_input back_in_input)
    as (_ & _ & _ & V & E & D & I & S & _); [reflexivity | reflexivity |].
  repeat split; assumption.
Defined.

(** C4, as stated, fails: one step back from the artifact screen the
    machine is on the result screen and holds the artifact image; a
    reshuffle whose retrieval is rejected keeps the result but drops
    the image. *)
Lemma reshuffle_failure_drops_image :
  reachable back_in_echo
  /\ view (st back_in_echo) = VEcho
  /\ data (st back_in_echo) = Some sample_data
  /\ all_enabled [ESubmit; ERetrieval Rejected] back_in_echo = true
  /\ synthesisImage (st back_in_echo) = Some sample_url
  /\ synthesisImage (st (run [ESubmit; ERetrieval Rejected] back_in_echo))
     <> synthesisImage (st back_in_echo).
Proof.
  split; [exact back_in_echo_reachable|].
  repeat split; try reflexivity. discriminate.
Qed.

(** C4, amended. A reshuffle on the result screen (the input text it
    re-sends being non-blank) whose retrieval is rejected keeps the
    result and the input text, stays on the result screen and sets the
    generic error message; it also clears the artifact image. *)
Theorem reshuffle_failure_keeps_result (w : World) (d : EchoData) :
  view (st w) = VEcho ->
  data (st w) = Some d ->
  loading (st w) = false ->
  blank (input (st w)) = false ->
  let w1 := apply ESubmit w in
  let w2 := apply (ERetrieval Rejected) w1 in
  enabled w ESubmit = true
  /\ retrievals w1 = S (retrievals w)
  /\ view (st w2) = VEcho
  /\ data (st w2) = Some d
  /\ error (st w2) = archive_silent
  /\ input (st w2) = input (st w)
  /\ synthesisImage (st w2) = None
  /\ loading (st w2) = false.
Proof.
  intros V D L B w1 w2. subst w1 w2.
  rewrite (st_submit_rejected w B), retrievals_submit.
  rewrite (findEcho_not_blank _ B). simpl.
  unfold enabled, renders_input, renders_echo. rewrite V, D, L. simpl.
  repeat split; reflexivity.
Qed.

Lemma reshuffle_failure_keeps_result_witness :
  let w2 := run [ESubmit; ERetrieval Rejected] back_in_echo in
  view (st w2) = VEcho
  /\ data (st w2) = Some sample_data
  /\ error (st w2) = archive_silent
  /\ input (st w2) = js "3 AM"
  /\ synthesisImage (st w2) = None.
Proof.
  destruct (reshuffle_failure_keeps_result back_in_echo sample_data)
    as (_ & _ & V & D & E & I & S & _); try reflexivity.
  repeat split; assumption.
Defined.

(** ** Reset *)

(** C5. From every world, reset clears the result, the input text and
    the artifact image, shows the input screen and leaves the storage
    slot empty after the save effect has run; a start on that storage
    restores nothing: it yields the initial state and an empty slot. *)
Theorem reset_clears_session (w : World) :
  let w' := apply EReset w in
  enabled w EReset = true
  /\ data (st w') = None
  /\ input (st w') = []
  /\ synthesisImage (st w') = None
  /\ view (st w') = VInput
  /\ localStorage w' = None
  /\ saveSession w' = w'
  /\ st (mount (localStorage w')) = initialState
  /\ localStorage (mount (localStorage w')) = None.
Proof.
  cbv zeta. rewrite slot_reset, st_reset.
  repeat split; reflexivity.
Qed.

(** C10. Reset leaves the error message as it is: an error that is set
    is still set after reset, and is shown on the input screen. *)
Theorem reset_keeps_error (w : World) :
  truthy (error (st w)) = true ->
  let w' := apply EReset w in
  error (st w') = error (st w)
  /\ view (st w') = VInput
  /\ renders_error (st w') = true.
Proof.
  intros T. cbv zeta. rewrite st_reset. unfold renders_error, renders_input.
  simpl. rewrite T. repeat split; reflexivity.
Qed.

Lemma reset_keeps_error_witness :
  error (st after_failed_query) = archive_silent
  /\ error (st (apply EReset after_failed_query)) = archive_silent
  /\ renders_error (st (apply EReset after_failed_query)) = true.
Proof.
  split; [reflexivity|].
  destruct (reset_keeps_error after_failed_query) as (E & _ & R);
    [reflexivity|].
  split; [exact E | exact R].
Defined.

(** ** Snapshot present iff result held *)

(** C6. In every reachable world the storage slot is set exactly when a
    result is held; whatever the event, if a result is held once it is
    committed then the slot holds the serialization of the committed
    state; and reset leaves the slot unset, not set to an empty
    snapshot. *)
Theorem snapshot_iff_result (w : World) :
  reachable w ->
  (present (localStorage w) = true <-> present (data (st w)) = true)
  /\ (forall e : Event,
        present (data (st (apply e w))) = true ->
        localStorage (apply e w) = Some (stringify (st (apply e w))))
  /\ localStorage (apply EReset w) = None.
Proof.
  intros R. pose proof (reachable_in_step w R) as I.
  split; [|split].
  - unfold slot_in_step in I. rewrite I.
    destruct (data (st w)); simpl; split; auto.
  - intros e P. pose proof (apply_in_step e w I) as I'.
    unfold slot_in_step in I'. rewrite I'.
    destruct (data (st (apply e w))); [reflexivity | discriminate].
  - apply slot_reset.
Qed.

(** The invariant is about what the program writes.  Content of the
    slot that does not parse is neither restored nor removed at start:
    it stays until a retrieval is fulfilled or the user resets. *)
Lemma unparseable_storage_is_kept :
  st (mount (Some Unparseable)) = initialState
  /\ localStorage (mount (Some Unparseable)) = Some Unparseable
  /\ localStorage (apply EReset (mount (Some Unparseable))) = None.
Proof. repeat split. Qed.

Lemma snapshot_iff_result_witness :
  let w := run to_artifact (mount None) in
  present (localStorage w) = true
  /\ present (data (st w)) = true
  /\ localStorage (apply EBack w) = Some (stringify (st (apply EBack w)))
  /\ localStorage (apply EReset w) = None.
Proof.
  cbv zeta.
  assert (R : reachable (run to_artifact (mount None))).
  { apply reachable_run; [apply reach_first | reflexivity]. }
  destruct (snapshot_iff_result _ R) as ((_ & H1) & H2 & H3).
  split; [apply H1; reflexivity|].
  split; [reflexivity|].
  split; [apply (H2 EBack); reflexivity | exact H3].
Defined.

(** ** Renders that throw *)

Lemma step_live (e : Event) (w : World) :
  render_throws (st (handle e w)) = false -> step e w = Live (apply e w).
Proof. intros H. unfold step. rewrite H. reflexivity. Qed.

(** A reset never makes the render throw: it shows the input screen. *)
Lemma render_after_reset (w : World) :
  render_throws (st (handle EReset w)) = false.
Proof. reflexivity. Qed.

(** When the render throws the slot is the one before the event. *)
Lemma step_crashed (e : Event) (w : World) :
  render_throws (st (handle e w)) = true ->
  step e w = Crashed (localStorage w).
Proof.
  intros H. unfold step. rewrite H, handle_slot.
  destruct e; try reflexivity.
  rewrite render_after_reset in H. discriminate.
Qed.

Lemma render_throws_apply (e : Event) (w : World) :
  render_throws (st (apply e w)) = render_throws (st (handle e w)).
Proof. rewrite apply_st. reflexivity. Qed.

(** ** Results that arrive late *)

(** C2, as stated, fails: the retrieval issued before the reset is
    still pending after it; when it is fulfilled its result is stored,
    the machine leaves the input screen for the result screen and the
    slot that reset emptied is written again. *)
Lemma late_retrieval_overwrites_reset :
  reachable reset_in_flight
  /\ enabled reset_in_flight (ERetrieval (Fulfilled sample_data)) = true
  /\ data (st reset_in_flight) = None
  /\ view (st reset_in_flight) = VInput
  /\ localStorage reset_in_flight = None
  /\ data (st (apply (ERetrieval (Fulfilled sample_data)) reset_in_flight))
     = Some sample_data
  /\ view (st (apply (ERetrieval (Fulfilled sample_data)) reset_in_flight))
     = VEcho
  /\ st (apply (ERetrieval (Fulfilled sample_data)) reset_in_flight)
     <> st reset_in_flight
  /\ localStorage (apply (ERetrieval (Fulfilled sample_data)) reset_in_flight)
     <> None
  /\ step (ERetrieval (Fulfilled sample_data)) reset_in_flight
     = Live (apply (ERetrieval (Fulfilled sample_data)) reset_in_flight).
Proof.
  split.
  { apply reachable_run; [apply reach_first | reflexivity]. }
  repeat split; try reflexivity; discriminate.
Qed.

(** C2, amended. A settled retrieval or synthesis is applied to the
    state the machine is in on arrival, whatever happened since the
    request was issued (a reset, a step back, other requests): there is
    no generation token and nothing is discarded.  A fulfilled retrieval
    stores its result and sets the result view; when the result screen
    then renders, the new state is persisted, and when that render
    throws the slot stays as it was on arrival.  A rejected retrieval
    sets the generic message; a loaded image is stored and the artifact
    view set; a failed synthesis sets its message and the result
    view. *)
Theorem settled_results_always_applied (w : World) (between : list Event) :
  let arrival := run between w in
  (forall d : EchoData,
      let w' := apply (ERetrieval (Fulfilled d)) arrival in
      data (st w') = Some d
      /\ view (st w') = VEcho
      /\ (render_throws (st w') = false ->
          step (ERetrieval (Fulfilled d)) arrival = Live w'
          /\ localStorage w' = Some (stringify (st w')))
      /\ (render_throws (st w') = true ->
          step (ERetrieval (Fulfilled d)) arrival
          = Crashed (localStorage arrival)))
  /\ error (st (apply (ERetrieval Rejected) arrival)) = archive_silent
  /\ (forall imageUrl : jsstring,
         let w' := apply (ESynthesis (ImageLoaded imageUrl)) arrival in
         synthesisImage (st w') = Some imageUrl
         /\ view (st w') = VArtifact)
  /\ (let w' := apply (ESynthesis ImageError) arrival in
      error (st w') = unable_to_render /\ view (st w') = VEcho)
  /\ (let w' := apply (ESynthesis Thrown) arrival in
      error (st w') = unable_to_synthesize /\ view (st w') = VEcho).
Proof.
  cbv zeta. generalize (run between w). intros a.
  split; [|repeat split; rewrite ?st_retrieval, ?st_synthesis; reflexivity].
  intros d. rewrite render_throws_apply.
  split; [rewrite st_retrieval; reflexivity|].
  split; [rewrite st_retrieval; reflexivity|].
  split.
  - intros H. split; [apply step_live, H | reflexivity].
  - intros H. apply step_crashed, H.
Qed.

Lemma settled_results_always_applied_witness :
  step (ERetrieval (Fulfilled sample_data)) reset_in_flight
  = Live (apply (ERetrieval (Fulfilled sample_data)) reset_in_flight)
  /\ localStorage (apply (ERetrieval (Fulfilled sample_data)) reset_in_flight)
     = Some (stringify
               (st (apply (ERetrieval (Fulfilled sample_data))
                          reset_in_flight)))
  /\ step (ERetrieval (Fulfilled unpaired_query_data)) reset_in_flight
     = Crashed None.
Proof.
  destruct (settled_results_always_applied (mount None)
              [EChange (js "3 AM"); ESubmit; EReset]) as (F & _).
  destruct (F sample_data) as (_ & _ & Hlive & _).
  destruct (F unpaired_query_data) as (_ & _ & _ & Hcrash).
  destruct (Hlive eq_refl) as (S & L).
  split; [exact S|]. split; [exact L|].
  exact (Hcrash eq_refl).
Defined.

(** ** Restoring a session *)

(** C3, as stated, fails: a start on that snapshot restores the view
    verbatim, so the machine is in the artifact view, not the result
    view. *)
Lemma imageless_artifact_not_degraded :
  p_view imageless_artifact = Some VArtifact
  /\ p_synthesisImage imageless_artifact = None
  /\ view (st (mount (Some (Snapshot imageless_artifact)))) = VArtifact
  /\ view (st (mount (Some (Snapshot imageless_artifact)))) <> VEcho.
Proof. repeat split; try reflexivity. discriminate. Qed.

(** C3, amended. A start on a snapshot (result present) whose view is
    the artifact screen and whose image is absent or empty restores the
    result and the artifact view without an image: the render guard of
    the artifact screen is false, so no artifact screen is drawn, and
    neither is the result screen; one step back shows it. *)
Theorem restore_artifact_without_image (parsed : Parsed) (d : EchoData) :
  p_data parsed = Some d ->
  p_view parsed = Some VArtifact ->
  truthy_opt (p_synthesisImage parsed) = false ->
  let w := mount (Some (Snapshot parsed)) in
  view (st w) = VArtifact
  /\ data (st w) = Some d
  /\ synthesisImage (st w) = None
  /\ renders_artifact (st w) = false
  /\ renders_echo (st w) = false
  /\ renders_echo (st (apply EBack w)) = true.
Proof.
  intros D V T. cbv zeta. unfold mount, commit.
  rewrite apply_st, saveSession_st. simpl.
  rewrite saveSession_st. simpl. rewrite D, V, T. simpl.
  repeat split; reflexivity.
Qed.

Lemma restore_artifact_without_image_witness :
  let w := mount (Some (Snapshot imageless_artifact)) in
  view (st w) = VArtifact
  /\ synthesisImage (st w) = None
  /\ renders_artifact (st w) = false.
Proof.
  destruct (restore_artifact_without_image imageless_artifact sample_data)
    as (V & _ & S & R & _); try reflexivity.
  repeat split; assumption.
Defined.

(** ** Synthesis *)

(** C7. On the result screen with a result held, the synthesize action
    shows the synthesizing screen at once, while its request is still
    pending; when the image loads the machine goes on to the artifact
    screen, so the views run result, synthesizing, artifact; when the
    image fails to decode or the call throws it is back on the result
    screen, with the result kept and an error message set. *)
Theorem synthesize_transitions (w : World) (d : EchoData) :
  view (st w) = VEcho ->
  data (st w) = Some d ->
  let w1 := apply ESynthesize w in
  enabled w ESynthesize = true
  /\ view (st w1) = VSynthesizing
  /\ syntheses w1 = S (syntheses w)
  /\ (forall imageUrl : jsstring,
         view (st w) :: views [ESynthesize; ESynthesis (ImageLoaded imageUrl)] w
         = [VEcho; VSynthesizing; VArtifact]
         /\ synthesisImage (st (apply (ESynthesis (ImageLoaded imageUrl)) w1))
            = Some imageUrl)
  /\ (forall o : Synthesis,
         o = ImageError \/ o = Thrown ->
         view (st w) :: views [ESynthesize; ESynthesis o] w
         = [VEcho; VSynthesizing; VEcho]
         /\ data (st (apply (ESynthesis o) w1)) = Some d
         /\ truthy (error (st (apply (ESynthesis o) w1))) = true).
Proof.
  intros V D. cbv zeta.
  assert (G : generateArtifact (st w)
              = (setView VSynthesizing (st w), Some (synthesisPrompt d))).
  { unfold generateArtifact. rewrite D. reflexivity. }
  split.
  { unfold enabled, renders_echo. rewrite V, D. reflexivity. }
  split.
  { rewrite st_synthesize, G. reflexivity. }
  split.
  { rewrite syntheses_synthesize, G. reflexivity. }
  split.
  - intros imageUrl. simpl. rewrite st_synthesis, st_synthesize, G, V.
    split; reflexivity.
  - intros o [-> | ->]; simpl; rewrite st_synthesis, st_synthesize, G, V;
      simpl; rewrite D; repeat split; reflexivity.
Qed.

Lemma synthesize_transitions_witness :
  view (st first_result) = VEcho
  /\ view (st first_result)
     :: views [ESynthesize; ESynthesis (ImageLoaded sample_url)] first_result
     = [VEcho; VSynthesizing; VArtifact]
  /\ view (st first_result)
     :: views [ESynthesize; ESynthesis ImageError] first_result
     = [VEcho; VSynthesizing; VEcho].
Proof.
  destruct (synthesize_transitions first_result sample_data)
    as (_ & _ & _ & Hok & Hko); try reflexivity.
  destruct (Hok sample_url) as (E1 & _).
  destruct (Hko ImageError (or_introl eq_refl)) as (E2 & _).
  split; [reflexivity|].
  split; [exact E1 | exact E2].
Defined.

(** ** Card layout *)

Lemma noResizeAfterDraw_tracklist (es : list EchoItem) (y : Z)
    (rest : list Card.Op) :
  Card.noResizeAfterDraw true (Card.tracklist es y ++ rest)
  = Card.noResizeAfterDraw true rest.
Proof.
  revert y. induction es as [|e r IH]; intros y; simpl.
  - reflexivity.
  - apply IH.
Qed.

Lemma height_formula (d : EchoData) :
  Card.height d = (Card.width + 150 + 80 * Z.of_nat (length (echoes d)))%Z.
Proof. unfold Card.height, Card.tracklistHeight. lia. Qed.

(** C8. With an artifact image and a result of N echoes held (and a 2D
    context available), the compositor, whose image width is 1200, sizes
    the canvas to height 1200 + 150 + 80 * N before its first drawing
    call and never resizes it afterwards, whether or not the image
    loads and the export succeeds. *)
Theorem card_height_fixed_before_draw
    (s : State) (image : jsstring) (d : EchoData)
    (image_ok export_ok : bool) (now today : jsstring) :
  synthesisImage s = Some image ->
  truthy image = true ->
  data s = Some d ->
  let N := Z.of_nat (length (echoes d)) in
  let ops := Card.handleDownloadCard true image_ok export_ok now today s in
  Card.width = 1200%Z
  /\ Card.height d = (Card.width + 150 + 80 * N)%Z
  /\ Card.heightAtFirstDraw None ops = Some (Card.width + 150 + 80 * N)%Z
  /\ Card.noResizeAfterDraw false ops = true.
Proof.
  intros I T D N ops. subst N ops.
  split; [reflexivity|]. split; [apply height_formula|].
  unfold Card.handleDownloadCard. rewrite I, D, T.
  cbn [negb].
  split.
  - destruct image_ok, export_ok;
      cbn [negb app Card.heightAtFirstDraw Card.is_draw];
      f_equal; lia.
  - destruct image_ok, export_ok;
      cbn [negb app Card.noResizeAfterDraw Card.is_size Card.is_draw orb andb];
      rewrite <- ?app_assoc, ?noResizeAfterDraw_tracklist; reflexivity.
Qed.

Lemma card_height_fixed_before_draw_witness :
  length (echoes sample_data) = 2
  /\ Card.height sample_data = 1510%Z
  /\ Card.heightAtFirstDraw None
       (Card.handleDownloadCard true true true (js "17") (js "1/1/2026")
          artifact_shown)
     = Some 1510%Z.
Proof.
  destruct (card_height_fixed_before_draw artifact_shown sample_url
              sample_data true true (js "17") (js "1/1/2026"))
    as (_ & H & F & _); try reflexivity.
  split; [reflexivity|].
  split; [exact H | exact F].
Defined.

(** * Further properties *)

(** ** encodeURIComponent *)

(** Induction for functions that consume one or two code units. *)
Lemma two_step_ind (P : jsstring -> Prop) :
  P [] ->
  (forall c r, P r -> (forall d r', r = d :: r' -> P r') -> P (c :: r)) ->
  forall s, P s.
Proof.
  intros H0 Hs s.
  assert (H : P s /\ (forall d r', s = d :: r' -> P r')).
  { induction s as [|c r [IH1 IH2]].
    - split; [exact H0 | discriminate].
    - split.
      + apply Hs; assumption.
      + intros d r' E. injection E as _ <-. exact IH1. }
  exact (proj1 H).
Qed.

Lemma unreserved_not_surrogate (c : N) :
  URI.unreserved c = true ->
  URI.isLeadSurrogate c = false /\ URI.isTrailSurrogate c = false.
Proof.
  unfold URI.unreserved, URI.isLeadSurrogate, URI.isTrailSurrogate.
  intros U. split; apply andb_false_iff.
  - destruct (N.leb_spec 55296 c) as [L|L]; [|left; reflexivity].
    exfalso. repeat (apply orb_true_iff in U as [U|U]);
      try (apply andb_true_iff in U as [_ U]; apply N.leb_le in U; lia);
      apply N.eqb_eq in U; lia.
  - destruct (N.leb_spec 56320 c) as [L|L]; [|left; reflexivity].
    exfalso. repeat (apply orb_true_iff in U as [U|U]);
      try (apply andb_true_iff in U as [_ U]; apply N.leb_le in U; lia);
      apply N.eqb_eq in U; lia.
Qed.

Lemma lead_not_trail (c : N) :
  URI.isLeadSurrogate c = true -> URI.isTrailSurrogate c = false.
Proof.
  unfold URI.isLeadSurrogate, URI.isTrailSurrogate. intros L.
  apply andb_true_iff in L as [_ L]. apply N.leb_le in L.
  apply andb_false_iff. left. apply N.leb_gt. lia.
Qed.

Lemma present_option_map {A B : Type} (f : A -> B) (o : option A) :
  present (option_map f o) = present o.
Proof. destruct o; reflexivity. Qed.

(** [encodeURIComponent] throws exactly on the strings that are not
    well-formed. *)
Lemma encodeURIComponent_defined (s : jsstring) :
  present (URI.encodeURIComponent s) = URI.isWellFormed s.
Proof.
  induction s as [|c r IHr IHr'] using two_step_ind; [reflexivity|].
  simpl. destruct (URI.unreserved c) eqn:U.
  - destruct (unreserved_not_surrogate c U) as [-> ->].
    rewrite present_option_map. exact IHr.
  - destruct (URI.isLeadSurrogate c) eqn:L.
    + destruct r as [|d r']; [reflexivity|].
      destruct (URI.isTrailSurrogate d); [|reflexivity].
      rewrite present_option_map. simpl. apply (IHr' d r' eq_refl).
    + destruct (URI.isTrailSurrogate c); [reflexivity|].
      rewrite present_option_map. exact IHr.
Qed.

Lemma isWellFormed_app (a b : jsstring) :
  URI.isWellFormed a = true ->
  URI.isWellFormed (a ++ b) = URI.isWellFormed b.
Proof.
  induction a as [|c r IHr IHr'] using two_step_ind; [reflexivity|].
  simpl. destruct (URI.isLeadSurrogate c).
  - destruct r as [|d r']; [discriminate|]. simpl.
    intros W. apply andb_true_iff in W as [-> W]. simpl.
    apply (IHr' d r' eq_refl W).
  - intros W. apply andb_true_iff in W as [-> W]. simpl. apply IHr, W.
Qed.

Lemma hexDigit_unreserved (n : N) :
  (n < 16)%N -> URI.unreserved (URI.hexDigit n) = true.
Proof.
  intros H. rewrite <- (N2Nat.id n).
  assert (K : N.to_nat n < 16) by lia.
  revert K. generalize (N.to_nat n). intros k K.
  do 16 (destruct k as [|k]; [reflexivity|]). lia.
Qed.

Lemma escapeOctet_escaped (b : N) :
  (b < 256)%N -> forallb URI.escaped (URI.escapeOctet b) = true.
Proof.
  intros H. unfold URI.escapeOctet, URI.escaped. cbn [forallb].
  rewrite !hexDigit_unreserved.
  - reflexivity.
  - apply N.mod_lt. discriminate.
  - apply N.Div0.div_lt_upper_bound. exact H.
Qed.

Lemma utf8_octets (cp : N) :
  (cp < 1114112)%N -> Forall (fun b => (b < 256)%N) (URI.utf8 cp).
Proof.
  intros H. unfold URI.utf8.
  assert (M : forall x, (x mod 64 < 64)%N) by (intros; apply N.mod_lt; discriminate).
  destruct (N.ltb_spec cp 128); [repeat constructor; lia|].
  destruct (N.ltb_spec cp 2048).
  { assert (cp / 64 < 32)%N by (apply N.Div0.div_lt_upper_bound; lia).
    pose proof (M cp). repeat constructor; lia. }
  destruct (N.ltb_spec cp 65536).
  { assert (cp / 4096 < 16)%N by (apply N.Div0.div_lt_upper_bound; lia).
    pose proof (M cp). pose proof (M (cp / 64)%N). repeat constructor; lia. }
  assert (cp / 262144 < 5)%N by (apply N.Div0.div_lt_upper_bound; lia).
  pose proof (M cp). pose proof (M (cp / 64)%N). pose proof (M (cp / 4096)%N).
  repeat constructor; lia.
Qed.

Lemma escapeOctets_escaped (l : list N) :
  Forall (fun b => (b < 256)%N) l ->
  forallb URI.escaped (flat_map URI.escapeOctet l) = true.
Proof.
  induction 1 as [|b l Hb _ IH]; [reflexivity|].
  cbn [flat_map]. rewrite forallb_app, IH, (escapeOctet_escaped b Hb).
  reflexivity.
Qed.

Lemma escapeCodePoint_escaped (cp : N) :
  (cp < 1114112)%N -> forallb URI.escaped (URI.escapeCodePoint cp) = true.
Proof.
  intros H. apply escapeOctets_escaped, utf8_octets, H.
Qed.

Lemma pairCodePoint_bound (c d : N) :
  URI.isLeadSurrogate c = true -> URI.isTrailSurrogate d = true ->
  (URI.pairCodePoint c d < 1114112)%N.
Proof.
  unfold URI.isLeadSurrogate, URI.isTrailSurrogate, URI.pairCodePoint.
  intros L T. apply andb_true_iff in L as [L1 L2].
  apply andb_true_iff in T as [T1 T2].
  apply N.leb_le in L1, L2, T1, T2. lia.
Qed.

(** The result of [encodeURIComponent] consists of unreserved
    characters and ['%'] only. *)
Lemma encodeURIComponent_escaped (s encoded : jsstring) :
  URI.codeUnits s = true ->
  URI.encodeURIComponent s = Some encoded ->
  forallb URI.escaped encoded = true.
Proof.
  revert encoded.
  induction s as [|c r IHr IHr'] using two_step_ind; intros encoded C E.
  - injection E as <-. reflexivity.
  - simpl in C. apply andb_true_iff in C as [Cc Cr]. apply N.ltb_lt in Cc.
    simpl in E. destruct (URI.unreserved c) eqn:U.
    + destruct (URI.encodeURIComponent r) as [x|]; [|discriminate].
      injection E as <-. simpl. unfold URI.escaped at 1. rewrite U. simpl.
      apply IHr; [exact Cr | reflexivity].
    + destruct (URI.isLeadSurrogate c) eqn:L.
      * destruct r as [|d r']; [discriminate|].
        destruct (URI.isTrailSurrogate d) eqn:T; [|discriminate].
        destruct (URI.encodeURIComponent r') as [x|] eqn:Er; [|discriminate].
        injection E as <-. rewrite forallb_app.
        rewrite (escapeCodePoint_escaped _ (pairCodePoint_bound c d L T)).
        simpl in Cr. apply andb_true_iff in Cr as [_ Cr'].
        apply (IHr' d r' eq_refl x Cr' Er).
      * destruct (URI.isTrailSurrogate c); [discriminate|].
        destruct (URI.encodeURIComponent r) as [x|]; [|discriminate].
        injection E as <-. rewrite forallb_app.
        rewrite escapeCodePoint_escaped by lia.
        apply IHr; [exact Cr | reflexivity].
Qed.

Lemma escaped_not_delimiter (c : N) :
  URI.escaped c = true -> url_delimiter c = false.
Proof.
  unfold URI.escaped, URI.unreserved, url_delimiter. intros U.
  repeat (apply orb_false_iff; split); apply N.eqb_neq; intros ->;
    discriminate.
Qed.

(** ** The image URL *)

Lemma generateEchoArtifact_some (prompt : jsstring) (seed : N) (url : jsstring) :
  generateEchoArtifact prompt seed = Some url ->
  exists encoded,
    URI.encodeURIComponent prompt = Some encoded
    /\ url = artifact_url_prefix ++ encoded ++ artifact_url_query seed.
Proof.
  unfold generateEchoArtifact.
  destruct (URI.encodeURIComponent prompt) as [encoded|]; [|discriminate].
  intros E. injection E as <-. exists encoded. split; reflexivity.
Qed.

(** Unreserved characters are copied. *)
Lemma encodeURIComponent_unreserved (s : jsstring) :
  forallb URI.unreserved s = true -> URI.encodeURIComponent s = Some s.
Proof.
  induction s as [|c r IH]; [reflexivity|].
  simpl. intros U. apply andb_true_iff in U as [Uc Ur].
  rewrite Uc, (IH Ur). reflexivity.
Qed.

Lemma encoded_without_delimiter (s encoded : jsstring) :
  URI.codeUnits s = true ->
  URI.encodeURIComponent s = Some encoded ->
  existsb url_delimiter encoded = false.
Proof.
  intros C E. pose proof (encodeURIComponent_escaped _ _ C E) as F.
  clear - F. induction encoded as [|c r IH]; [reflexivity|].
  simpl in F. apply andb_true_iff in F as [Fc Fr].
  simpl. rewrite (escaped_not_delimiter c Fc), (IH Fr). reflexivity.
Qed.

(** X1. Whatever the prompt (a string of UTF-16 code units), the URL
    that [generateEchoArtifact] returns is the fixed prefix, the
    [encodeURIComponent] of the prompt and the fixed query with the
    seed; the encoded prompt holds none of [? & # / =], so it adds no
    separator, query parameter or fragment; and a prompt of unreserved
    characters only is copied as it is, dots included. *)
Theorem artifact_url_shape (prompt : jsstring) (seed : N) (url : jsstring) :
  URI.codeUnits prompt = true ->
  generateEchoArtifact prompt seed = Some url ->
  exists encoded : jsstring,
    URI.encodeURIComponent prompt = Some encoded
    /\ url = artifact_url_prefix ++ encoded ++ artifact_url_query seed
    /\ existsb url_delimiter encoded = false
    /\ (forallb URI.unreserved prompt = true -> encoded = prompt).
Proof.
  intros C G. destruct (generateEchoArtifact_some _ _ _ G) as (encoded & E & ->).
  exists encoded. split; [exact E|]. split; [reflexivity|]. split.
  - apply (encoded_without_delimiter prompt encoded C E).
  - intros U. rewrite (encodeURIComponent_unreserved prompt U) in E.
    injection E as <-. reflexivity.
Qed.

Lemma artifact_url_shape_witness :
  exists encoded : jsstring,
    URI.encodeURIComponent (js "rain?&seed=1/..") = Some encoded
    /\ js "https://image.pollinations.ai/prompt/rain%3F%26seed%3D1%2F..?width=1000&height=1000&nologo=true&seed=42&model=flux"
       = artifact_url_prefix ++ encoded ++ artifact_url_query 42
    /\ existsb url_delimiter encoded = false.
Proof.
  destruct (artifact_url_shape (js "rain?&seed=1/..") 42
              (js "https://image.pollinations.ai/prompt/rain%3F%26seed%3D1%2F..?width=1000&height=1000&nologo=true&seed=42&model=flux"))
    as (encoded & E & U & D & _); [reflexivity | reflexivity |].
  exists encoded. split; [exact E|]. split; [exact U | exact D].
Defined.

Lemma generateEchoArtifact_present (prompt : jsstring) (seed : N) :
  present (generateEchoArtifact prompt seed) = URI.isWellFormed prompt.
Proof.
  unfold generateEchoArtifact. rewrite present_option_map.
  apply encodeURIComponent_defined.
Qed.

(** X2. [generateEchoArtifact] rejects exactly when the prompt is not
    well-formed UTF-16 (it holds a surrogate outside a pair), whatever
    the seed; only then does [generateArtifact] take its [catch]
    branch. *)
Theorem artifact_url_rejects_iff_ill_formed
    (prompt : jsstring) (seed : N) (image_loads : bool) :
  present (generateEchoArtifact prompt seed) = URI.isWellFormed prompt
  /\ (synthesis_of prompt seed image_loads = Thrown
      <-> URI.isWellFormed prompt = false).
Proof.
  pose proof (generateEchoArtifact_present prompt seed) as P.
  split; [exact P|].
  unfold synthesis_of. rewrite <- P.
  destruct (generateEchoArtifact prompt seed); simpl.
  - destruct image_loads; split; discriminate.
  - split; reflexivity.
Qed.

(** X3. For every URL that [generateEchoArtifact] returns, the
    compositor loads the image from that URL followed by ['&cb='] and
    the time stamp: the URL starts with http and already has a query. *)
Theorem cache_buster_on_artifact_url
    (prompt : jsstring) (seed : N) (url now : jsstring) :
  generateEchoArtifact prompt seed = Some url ->
  truthy url = true
  /\ Card.imageSrc now url = url ++ js "&cb=" ++ now.
Proof.
  intros G. destruct (generateEchoArtifact_some _ _ _ G) as (encoded & _ & ->).
  split; [reflexivity|].
  unfold Card.imageSrc.
  replace (Card.startsWith (js "http")
             (artifact_url_prefix ++ encoded ++ artifact_url_query seed))
    with true by reflexivity.
  rewrite !existsb_app.
  replace (existsb (N.eqb 63) (artifact_url_query seed)) with true
    by reflexivity.
  rewrite !orb_true_r. reflexivity.
Qed.

Lemma cache_buster_on_artifact_url_witness :
  Card.imageSrc (js "1700000000000")
    (js "https://image.pollinations.ai/prompt/rain?width=1000&height=1000&nologo=true&seed=42&model=flux")
  = js "https://image.pollinations.ai/prompt/rain?width=1000&height=1000&nologo=true&seed=42&model=flux&cb=1700000000000".
Proof.
  apply (cache_buster_on_artifact_url (js "rain") 42). reflexivity.
Defined.

(** ** The synthesis prompt *)

Lemma isWellFormed_join (sep : jsstring) (l : list jsstring) :
  URI.isWellFormed sep = true ->
  forallb URI.isWellFormed l = true ->
  URI.isWellFormed (join sep l) = true.
Proof.
  intros S. induction l as [|x r IH]; [reflexivity|].
  intros F. simpl in F. apply andb_true_iff in F as [Fx Fr].
  destruct r as [|y r']; [exact Fx|].
  change (join sep (x :: y :: r')) with (x ++ sep ++ join sep (y :: r')).
  rewrite (isWellFormed_app _ _ Fx), (isWellFormed_app _ _ S).
  apply IH, Fr.
Qed.

Lemma isWellFormed_synthesisPrompt (d : EchoData) :
  prompt_texts_wellFormed d = true ->
  URI.isWellFormed (synthesisPrompt d) = true.
Proof.
  unfold prompt_texts_wellFormed. intros W.
  apply andb_true_iff in W as [Wk We].
  assert (Wi : URI.isWellFormed (echoInfluences d) = true).
  { unfold echoInfluences. apply isWellFormed_join; [reflexivity|].
    induction (echoes d) as [|e r IH]; [reflexivity|].
    simpl in We. apply andb_true_iff in We as [Wx Wr].
    apply andb_true_iff in Wx as [Wt Wy].
    cbn [map forallb]. rewrite (IH Wr), andb_true_r.
    rewrite (isWellFormed_app _ _ Wt).
    rewrite (isWellFormed_app (js " (")) by reflexivity.
    rewrite (isWellFormed_app _ _ Wy). reflexivity. }
  unfold synthesisPrompt.
  repeat (rewrite isWellFormed_app by (reflexivity || assumption)).
  reflexivity.
Qed.

(** X4. When the thematic key and the title and type of every echo are
    well-formed UTF-16, the synthesis request for that result never
    throws: it yields a URL, and the synthesis settles as image loaded
    or image error, never through the [catch] branch. *)
Theorem wellformed_result_never_throws (d : EchoData) (seed : N) :
  prompt_texts_wellFormed d = true ->
  exists url : jsstring,
    generateEchoArtifact (synthesisPrompt d) seed = Some url
    /\ synthesis_of (synthesisPrompt d) seed true = ImageLoaded url
    /\ synthesis_of (synthesisPrompt d) seed false = ImageError.
Proof.
  intros W. apply isWellFormed_synthesisPrompt in W.
  pose proof (generateEchoArtifact_present (synthesisPrompt d) seed) as P.
  rewrite W in P. unfold synthesis_of.
  destruct (generateEchoArtifact (synthesisPrompt d) seed) as [url|];
    [|discriminate].
  exists url. repeat split.
Qed.

Lemma wellformed_result_never_throws_witness :
  exists url : jsstring,
    generateEchoArtifact (synthesisPrompt sample_data) 42 = Some url
    /\ synthesis_of (synthesisPrompt sample_data) 42 true = ImageLoaded url
    /\ synthesis_of (synthesisPrompt sample_data) 42 false = ImageError.
Proof.
  apply (wellformed_result_never_throws sample_data 42). reflexivity.
Defined.

Lemma occurs_in_refl (p : jsstring) : occurs_in p p.
Proof. exists [], []. simpl. rewrite app_nil_r. reflexivity. Qed.

Lemma occurs_in_app_r (p s a : jsstring) :
  occurs_in p s -> occurs_in p (a ++ s).
Proof.
  intros (x & y & ->). exists (a ++ x), y.
  rewrite <- !app_assoc. reflexivity.
Qed.

Lemma occurs_in_app_l (p s b : jsstring) :
  occurs_in p s -> occurs_in p (s ++ b).
Proof.
  intros (x & y & ->). exists x, (y ++ b).
  rewrite <- !app_assoc. reflexivity.
Qed.

Lemma occurs_in_join (sep x : jsstring) (l : list jsstring) :
  In x l -> occurs_in x (join sep l).
Proof.
  induction l as [|y r IH]; [intros []|].
  intros [->|H].
  - destruct r as [|z r'].
    + exists [], []. simpl. rewrite app_nil_r. reflexivity.
    + exists [], (sep ++ join sep (z :: r')). reflexivity.
  - destruct r as [|z r']; [destruct H|].
    change (join sep (y :: z :: r')) with (y ++ sep ++ join sep (z :: r')).
    destruct (IH H) as (a & b & E). rewrite E.
    exists (y ++ sep ++ a), b. rewrite <- !app_assoc. reflexivity.
Qed.

(** X5. The synthesis prompt contains the thematic key of the result
    and, for every echo of the result, its title followed by its type
    in parentheses. *)
Theorem prompt_names_every_echo (d : EchoData) (e : EchoItem) :
  In e (echoes d) ->
  occurs_in (thematic_key d) (synthesisPrompt d)
  /\ occurs_in (title e ++ js " (" ++ type e ++ js ")") (synthesisPrompt d).
Proof.
  intros H. unfold synthesisPrompt. split.
  - do 2 apply occurs_in_app_r. apply occurs_in_app_l, occurs_in_refl.
  - do 6 apply occurs_in_app_r. apply occurs_in_app_l.
    unfold echoInfluences. apply occurs_in_join.
    apply (in_map (fun e => title e ++ js " (" ++ type e ++ js ")")), H.
Qed.

Lemma prompt_names_every_echo_witness :
  occurs_in (js "Entropy") (synthesisPrompt sample_data)
  /\ occurs_in (js "Dusk (Poetry)") (synthesisPrompt sample_data).
Proof.
  apply (prompt_names_every_echo sample_data sample_item).
  left. reflexivity.
Defined.

(** ** Queries *)

Lemma render_throws_wellFormed (s : State) (d : EchoData) :
  data s = Some d ->
  URI.isWellFormed (redditTerm d (input s)) = true ->
  render_throws s = false.
Proof.
  intros D W. unfold render_throws, redditHref. rewrite D.
  rewrite present_option_map, encodeURIComponent_defined, W.
  apply andb_false_r.
Qed.

(** X6. In a world on screen, a submit of a non-blank input whose
    retrieval is fulfilled with a result for which the result screen
    renders (the term of its community link, the search query or else
    the input text, is well-formed) goes through two renders that do
    not throw; it stores the result, shows the result screen, clears
    the error, the artifact image and the loading flag and keeps the
    input text; the slot then holds that result, exactly the submitted
    text, the result view and no image, and no retrieval of this submit
    is left pending. *)
Theorem query_success (w : World) (d : EchoData) :
  render_throws (st w) = false ->
  blank (input (st w)) = false ->
  URI.isWellFormed (redditTerm d (input (st w))) = true ->
  let w1 := apply ESubmit w in
  let w2 := apply (ERetrieval (Fulfilled d)) w1 in
  step ESubmit w = Live w1
  /\ step (ERetrieval (Fulfilled d)) w1 = Live w2
  /\ st w2 = {| input := input (st w);
                loading := false;
                data := Some d;
                error := [];
                view := VEcho;
                synthesisImage := None;
                placeholderIndex := placeholderIndex (st w) |}
  /\ localStorage w2 =
     Some (Snapshot {| p_data := Some d;
                       p_input := Some (input (st w));
                       p_view := Some VEcho;
                       p_synthesisImage := None |})
  /\ retrievals w2 = retrievals w.
Proof.
  intros Rw B W. cbv zeta.
  assert (S1 : st (handle ESubmit w)
               = setSynthesisImage None (setError [] (setLoading true (st w)))).
  { rewrite <- apply_st, st_submit, (findEcho_not_blank _ B). reflexivity. }
  assert (S : st (apply (ERetrieval (Fulfilled d)) (apply ESubmit w))
              = {| input := input (st w); loading := false; data := Some d;
                   error := []; view := VEcho; synthesisImage := None;
                   placeholderIndex := placeholderIndex (st w) |}).
  { rewrite st_retrieval, st_submit, (findEcho_not_blank _ B). reflexivity. }
  split.
  { apply step_live. rewrite S1. exact Rw. }
  split.
  { apply step_live. rewrite <- apply_st, S.
    apply (render_throws_wellFormed _ d); [reflexivity | exact W]. }
  split; [exact S|]. split.
  - unfold apply at 1, commit.
    rewrite (saveSession_slot_some _ d).
    + fold (apply (ERetrieval (Fulfilled d)) (apply ESubmit w)).
      rewrite <- apply_st, S. reflexivity.
    + rewrite <- apply_st, S. reflexivity.
  - unfold apply at 1, commit. rewrite saveSession_retrievals. simpl.
    rewrite retrievals_submit, (findEcho_not_blank _ B). reflexivity.
Qed.

Lemma query_success_witness :
  let w := apply (EChange (js "3 AM")) (mount None) in
  let w2 := apply (ERetrieval (Fulfilled sample_data)) (apply ESubmit w) in
  step (ERetrieval (Fulfilled sample_data)) (apply ESubmit w) = Live w2
  /\ view (st w2) = VEcho
  /\ localStorage w2 =
     Some (Snapshot {| p_data := Some sample_data;
                       p_input := Some (js "3 AM");
                       p_view := Some VEcho;
                       p_synthesisImage := None |}).
Proof.
  cbv zeta.
  destruct (query_success (apply (EChange (js "3 AM")) (mount None))
              sample_data) as (_ & T & S & L & _); try reflexivity.
  split; [exact T|]. split; [rewrite S; reflexivity | exact L].
Defined.

(** X7. Submitting again from the input screen while a retrieval is
    pending issues a second retrieval: the arrow is disabled while
    loading, the Enter key is not, and [findEcho] itself does not look
    at the loading flag. *)
Theorem enter_submits_while_loading (w : World) :
  view (st w) = VInput ->
  blank (input (st w)) = false ->
  let w1 := apply ESubmit w in
  loading (st w1) = true
  /\ arrow_disabled (st w1) = true
  /\ enabled w1 ESubmit = true
  /\ retrievals (apply ESubmit w1) = 2 + retrievals w.
Proof.
  intros V B. cbv zeta.
  assert (S : st (apply ESubmit w)
              = setSynthesisImage None (setError [] (setLoading true (st w)))).
  { rewrite st_submit, (findEcho_not_blank _ B). reflexivity. }
  assert (B1 : blank (input (st (apply ESubmit w))) = false).
  { rewrite S. exact B. }
  split; [rewrite S; reflexivity|].
  split; [unfold arrow_disabled; rewrite S; reflexivity|].
  split.
  - unfold enabled, renders_input. rewrite S. simpl. rewrite V. reflexivity.
  - rewrite retrievals_submit, (findEcho_not_blank _ B1). simpl.
    rewrite retrievals_submit, (findEcho_not_blank _ B). reflexivity.
Qed.

Lemma enter_submits_while_loading_witness :
  let w := apply (EChange (js "3 AM")) (mount None) in
  arrow_disabled (st (apply ESubmit w)) = true
  /\ retrievals (apply ESubmit (apply ESubmit w)) = 2.
Proof.
  cbv zeta.
  destruct (enter_submits_while_loading
              (apply (EChange (js "3 AM")) (mount None)))
    as (_ & A & _ & R); try reflexivity.
  split; [exact A | exact R].
Defined.

(** X8. Every concept the Drift button can pick is non-blank: after
    Drift the input text is that concept and a submit issues one
    retrieval for it. *)
Theorem drift_then_submit_queries (w : World) (i : nat) :
  view (st w) = VInput ->
  i < length DRIFT_CONCEPTS ->
  let concept := nth i DRIFT_CONCEPTS [] in
  let w1 := apply (EDrift i) w in
  enabled w (EDrift i) = true
  /\ input (st w1) = concept
  /\ findEcho None (st w1)
     = (setSynthesisImage None (setError [] (setLoading true (st w1))),
        Some concept)
  /\ retrievals (apply ESubmit w1) = S (retrievals w).
Proof.
  intros V L. cbv zeta.
  assert (S1 : st (apply (EDrift i) w) = handleDrift i (st w)).
  { rewrite apply_st. reflexivity. }
  assert (B : blank (input (st (apply (EDrift i) w))) = false).
  { rewrite S1. simpl.
    do 11 (destruct i as [|i]; [reflexivity|]).
    simpl in L. lia. }
  split.
  { unfold enabled, renders_input. rewrite V. simpl.
    apply Nat.ltb_lt. exact L. }
  split; [rewrite S1; reflexivity|].
  split.
  { rewrite (findEcho_not_blank _ B), S1. reflexivity. }
  rewrite retrievals_submit, (findEcho_not_blank _ B). simpl.
  unfold apply, commit. rewrite saveSession_retrievals. reflexivity.
Qed.

Lemma drift_then_submit_queries_witness :
  input (st (apply (EDrift 10) (mount None)))
  = js "The anticipation of a future that feels like a memory."
  /\ retrievals (apply ESubmit (apply (EDrift 10) (mount None))) = 1.
Proof.
  destruct (drift_then_submit_queries (mount None) 10)
    as (_ & I & _ & R); [reflexivity | simpl; lia |].
  split; [exact I | exact R].
Defined.

(** ** Back *)

Lemma st_back (w : World) : st (apply EBack w) = handleBack (st w).
Proof. rewrite apply_st. reflexivity. Qed.

(** X9. Back only changes the view: the result, the input text, the
    artifact image, the error and the loading flag are kept.  Two steps
    back end on the input screen from every view but the synthesizing
    one, which back does not leave, and a third step changes nothing
    more. *)
Theorem back_is_one_level (w : World) :
  let w1 := apply EBack w in
  let w2 := apply EBack w1 in
  data (st w1) = data (st w)
  /\ input (st w1) = input (st w)
  /\ synthesisImage (st w1) = synthesisImage (st w)
  /\ error (st w1) = error (st w)
  /\ loading (st w1) = loading (st w)
  /\ view (st w2) = match view (st w) with
                    | VSynthesizing => VSynthesizing
                    | _ => VInput
                    end
  /\ st (apply EBack w2) = st w2.
Proof.
  cbv zeta. rewrite !st_back. unfold handleBack.
  destruct (st w) as [i l d e v img p]. simpl.
  destruct v; repeat split.
Qed.

(** X10. On the synthesizing screen the back arrow is shown and can
    be pressed, but pressing it changes nothing, the storage slot
    included. *)
Theorem back_does_nothing_while_synthesizing (w : World) :
  reachable w ->
  view (st w) = VSynthesizing ->
  enabled w EBack = true /\ apply EBack w = w.
Proof.
  intros R V. split.
  - unfold enabled. rewrite V. reflexivity.
  - unfold apply, commit. simpl. unfold handleBack. rewrite V.
    pose proof (reachable_in_step w R) as I.
    destruct w as [s l r y]. simpl in *.
    apply saveSession_idempotent. exact I.
Qed.

Lemma synthesis_pending_reachable : reachable synthesis_pending.
Proof. apply reachable_run; [apply reach_first | reflexivity]. Qed.

Lemma back_does_nothing_while_synthesizing_witness :
  view (st synthesis_pending) = VSynthesizing
  /\ enabled synthesis_pending EBack = true
  /\ apply EBack synthesis_pending = synthesis_pending.
Proof.
  split; [reflexivity|].
  apply (back_does_nothing_while_synthesizing synthesis_pending).
  - exact synthesis_pending_reachable.
  - reflexivity.
Defined.

(** ** Restart *)

Lemma mount_of_session (w : World) (d : EchoData) :
  reachable w ->
  data (st w) = Some d ->
  mount (localStorage w) =
  {| st := restored_from (st w);
     localStorage := Some (stringify (restored_from (st w)));
     retrievals := 0;
     syntheses := 0 |}.
Proof.
  intros R D. pose proof (reachable_in_step w R) as I.
  unfold slot_in_step in I. rewrite D in I. rewrite I.
  unfold mount, commit, saveSession, restored_from.
  destruct (st w) as [i l dd e v img p]. simpl in *. subst dd.
  destruct i as [|c i'], v, img as [[|u img']|]; reflexivity.
Qed.

(** X11. A restart restores the result, the input text and the view
    exactly as they were; the artifact image comes back only when the
    view is the artifact one, and the error, the loading flag and the
    pending promises do not come back.  The slot is rewritten from the
    restored state. *)
Theorem restart_restores_session (w : World) (d : EchoData) :
  reachable w ->
  data (st w) = Some d ->
  mount (localStorage w) =
  {| st := restored_from (st w);
     localStorage := Some (stringify (restored_from (st w)));
     retrievals := 0;
     syntheses := 0 |}.
Proof.
  intros R D. pose proof (reachable_in_step w R) as I.
  unfold slot_in_step in I. rewrite D in I. rewrite I. clear I R.
  destruct (st w) as [i l dd e v img p]. simpl in D. subst dd.
  unfold mount, commit, saveSession, restored_from. simpl.
  destruct v; destruct i as [|c i']; destruct img as [[|u img']|];
    reflexivity.
Qed.

Lemma restart_restores_session_witness :
  st (mount (localStorage back_in_echo)) =
  {| input := js "3 AM"; loading := false; data := Some sample_data;
     error := []; view := VEcho; synthesisImage := None;
     placeholderIndex := 0 |}.
Proof.
  rewrite (restart_restores_session back_in_echo sample_data).
  - reflexivity.
  - exact back_in_echo_reachable.
  - reflexivity.
Defined.

(** X12. Starting twice is starting once: a start on the slot that a
    start leaves gives the same world, whatever the slot held, parseable
    or not. *)
Theorem restart_is_idempotent (storage : option Stored) :
  mount (localStorage (mount storage)) = mount storage.
Proof.
  destruct storage as [[[d i v img]|]|]; try reflexivity.
  destruct d as [d|]; [|reflexivity].
  unfold mount, commit, saveSession. simpl.
  destruct i as [[|c i']|], v as [[]|], img as [[|u img']|]; reflexivity.
Qed.

Lemma handle_in_synthesizing (w : World) (e : Event) :
  view (st w) = VSynthesizing -> retrievals w = 0 -> syntheses w = 0 ->
  enabled w e = true -> e = EReset \/ handle e w = w.
Proof.
  intros V Hr Hs En. destruct e; simpl in En;
    unfold renders_input, renders_echo in En; rewrite ?V, ?Hr, ?Hs in En;
    try discriminate.
  - left. reflexivity.
  - right. simpl. unfold handleBack. rewrite V. destruct w; reflexivity.
Qed.

(** X13. A session that is restarted while on the synthesizing screen
    comes back on the synthesizing screen with no synthesis pending:
    every event that can happen then is a reset or changes nothing, so
    only a reset leaves that screen. *)
Theorem restart_while_synthesizing_is_stuck
    (w : World) (d : EchoData) (es : list Event) :
  reachable w ->
  view (st w) = VSynthesizing ->
  data (st w) = Some d ->
  let w' := mount (localStorage w) in
  view (st w') = VSynthesizing
  /\ syntheses w' = 0
  /\ (all_enabled es w' = true -> existsb is_reset es = false ->
      run es w' = w').
Proof.
  intros R V D. cbv zeta.
  rewrite (mount_of_session w d R D).
  set (w' := {| st := restored_from (st w);
                localStorage := Some (stringify (restored_from (st w)));
                retrievals := 0; syntheses := 0 |}).
  split; [exact V|]. split; [reflexivity|].
  assert (Step : forall e, enabled w' e = true -> is_reset e = false ->
                           apply e w' = w').
  { intros e En Nr.
    destruct (handle_in_synthesizing w' e V eq_refl eq_refl En) as [->|H].
    - discriminate.
    - unfold apply, commit. rewrite H. apply saveSession_idempotent.
      unfold slot_in_step, w'. simpl. rewrite D. reflexivity. }
  induction es as [|e r IH]; [reflexivity|].
  simpl. intros En Nr.
  apply andb_true_iff in En as [En1 En2].
  apply orb_false_iff in Nr as [Nr1 Nr2].
  rewrite (Step e En1 Nr1) in *. apply IH; assumption.
Qed.

Lemma restart_while_synthesizing_is_stuck_witness :
  let w' := mount (localStorage synthesis_pending) in
  view (st w') = VSynthesizing
  /\ syntheses w' = 0
  /\ run [EBack; EBack] w' = w'.
Proof.
  cbv zeta.
  destruct (restart_while_synthesizing_is_stuck synthesis_pending sample_data
              [EBack; EBack] synthesis_pending_reachable eq_refl eq_refl)
    as (V & S & H).
  split; [exact V|]. split; [exact S|].
  apply H; reflexivity.
Defined.

(** ** Invariants of the reachable worlds *)

Lemma restoreSession_untouched (storage : option Stored) :
  loading (restoreSession storage initialState) = false
  /\ placeholderIndex (restoreSession storage initialState) = 0.
Proof.
  destruct storage as [[[d i v img]|]|]; try (split; reflexivity).
  destruct d as [d|]; [|split; reflexivity]. simpl.
  destruct v as [[]|]; try (split; reflexivity).
  destruct (truthy_opt img); split; reflexivity.
Qed.

Lemma apply_retrievals (e : Event) (w : World) :
  retrievals (apply e w) = retrievals (handle e w).
Proof. apply saveSession_retrievals. Qed.

(** X14. Whenever the loading flag is set a retrieval is pending, whose
    settlement clears the flag: the spinner and the disabled buttons
    cannot stay for ever once the retrieval settles. *)
Theorem loading_has_pending_retrieval (w : World) :
  reachable w ->
  (loading (st w) = true -> 0 < retrievals w)
  /\ (forall r : Settled EchoData,
         loading (st (apply (ERetrieval r) w)) = false).
Proof.
  intros R. split.
  - induction R as [|w e _ IH _|w _ _].
    + discriminate.
    + rewrite apply_st, apply_retrievals.
      destruct e; simpl; try exact IH.
      * unfold findEcho.
        destruct (negb (truthy (searchTerm_of None (st w)))
                  || negb (truthy (trim (searchTerm_of None (st w)))));
          simpl; [exact IH | lia].
      * destruct r; discriminate.
      * unfold generateArtifact. destruct (data (st w)); exact IH.
      * destruct o; exact IH.
      * unfold handleBack. destruct (view (st w)); exact IH.
    + unfold mount, commit. rewrite saveSession_st. simpl.
      rewrite (proj1 (restoreSession_untouched _)). discriminate.
  - intros r. rewrite st_retrieval. destruct r; reflexivity.
Qed.

Lemma loading_has_pending_retrieval_witness :
  let w := run [EChange (js "3 AM"); ESubmit] (mount None) in
  loading (st w) = true
  /\ 0 < retrievals w
  /\ loading (st (apply (ERetrieval Rejected) w)) = false.
Proof.
  cbv zeta.
  assert (R : reachable (run [EChange (js "3 AM"); ESubmit] (mount None))).
  { apply reachable_run; [apply reach_first | reflexivity]. }
  destruct (loading_has_pending_retrieval _ R) as (P & S).
  split; [reflexivity|].
  split; [apply P; reflexivity | apply S].
Defined.

(** X15. The placeholder index always stays below the number of
    placeholders, so the placeholder shown is always one of the list. *)
Theorem placeholder_index_in_bounds (w : World) :
  reachable w -> placeholderIndex (st w) < PLACEHOLDERS_length.
Proof.
  induction 1 as [|w e _ IH _|w _ _].
  - unfold PLACEHOLDERS_length. simpl. lia.
  - rewrite apply_st. destruct e; try (simpl; exact IH).
    + simpl. unfold findEcho.
      destruct (negb (truthy (searchTerm_of None (st w)))
                || negb (truthy (trim (searchTerm_of None (st w)))));
        exact IH.
    + destruct r; exact IH.
    + simpl. unfold generateArtifact. destruct (data (st w)); exact IH.
    + destruct o; exact IH.
    + simpl. unfold handleBack. destruct (view (st w)); exact IH.
    + change (Nat.modulo (placeholderIndex (st w) + 1) PLACEHOLDERS_length
              < PLACEHOLDERS_length).
      apply Nat.mod_upper_bound. discriminate.
  - unfold mount, commit. rewrite saveSession_st. simpl.
    rewrite (proj2 (restoreSession_untouched _)).
    unfold PLACEHOLDERS_length. lia.
Qed.

Lemma placeholder_index_in_bounds_witness :
  placeholderIndex (st (run (repeat ETick 14) (mount None))) = 0
  /\ placeholderIndex (st (run (repeat ETick 13) (mount None))) < 14.
Proof.
  split; [reflexivity|].
  apply (placeholder_index_in_bounds (run (repeat ETick 13) (mount None))).
  apply reachable_run; [apply reach_first | reflexivity].
Defined.

Lemma served_reachable (w : World) : reachable_served w -> reachable w.
Proof.
  induction 1 as [|w e _ IH En _|w _ IH].
  - apply reach_first.
  - apply reach_event; assumption.
  - apply reach_restart, IH.
Qed.

Lemma served_artifact_has_image (w : World) :
  reachable_served w ->
  view (st w) = VArtifact -> truthy_opt (synthesisImage (st w)) = true.
Proof.
  induction 1 as [|w e R IH En U|w R IH].
  - discriminate.
  - rewrite apply_st. destruct e; simpl; try exact IH.
    + unfold findEcho.
      destruct (negb (truthy (searchTerm_of None (st w)))
                || negb (truthy (trim (searchTerm_of None (st w)))));
        simpl; [exact IH|].
      simpl in En. unfold renders_input, renders_echo in En.
      destruct (view (st w)); simpl in En; discriminate.
    + destruct r; simpl; [discriminate | exact IH].
    + unfold generateArtifact.
      destruct (data (st w)); simpl; [discriminate | exact IH].
    + destruct o; simpl; try discriminate. intros _. exact U.
    + discriminate.
    + unfold handleBack. destruct (view (st w)) eqn:V; simpl;
        rewrite ?V; discriminate.
  - destruct (data (st w)) as [d|] eqn:D.
    + rewrite (mount_of_session w d (served_reachable w R) D). simpl.
      intros V. rewrite V. rewrite (IH V). exact (IH V).
    + pose proof (reachable_in_step w (served_reachable w R)) as I.
      unfold slot_in_step in I. rewrite D in I. rewrite I. discriminate.
Qed.

(** X16. When every image that loads has a non-empty URL (every URL of
    [generateEchoArtifact] is one), the artifact view always holds an
    image, and the slot never holds a snapshot with the artifact view
    and no image; with a result held, one of the four screens is always
    rendered. *)
Theorem artifact_view_holds_image (w : World) :
  reachable_served w ->
  (view (st w) = VArtifact -> truthy_opt (synthesisImage (st w)) = true)
  /\ (forall parsed : Parsed,
         localStorage w = Some (Snapshot parsed) ->
         p_view parsed = Some VArtifact ->
         truthy_opt (p_synthesisImage parsed) = true)
  /\ (present (data (st w)) = true -> renders_nothing (st w) = false).
Proof.
  intros R. pose proof (served_artifact_has_image w R) as A.
  split; [exact A|]. split.
  - intros parsed L V.
    pose proof (reachable_in_step w (served_reachable w R)) as I.
    unfold slot_in_step in I. rewrite L in I.
    destruct (data (st w)); [|discriminate].
    injection I as ->. simpl in V. injection V as V. exact (A V).
  - intros D. unfold renders_nothing, renders_input, renders_echo,
      renders_synthesizing, renders_artifact.
    rewrite D. destruct (view (st w)) eqn:V; try reflexivity.
    rewrite (A eq_refl). reflexivity.
Qed.

Lemma artifact_view_holds_image_witness :
  let w := run to_artifact (mount None) in
  view (st w) = VArtifact
  /\ truthy_opt (synthesisImage (st w)) = true
  /\ renders_nothing (st w) = false.
Proof.
  cbv zeta.
  assert (R : reachable_served (run to_artifact (mount None))).
  { unfold to_artifact. simpl run.
    repeat (apply served_event; [| reflexivity | reflexivity]).
    apply served_first. }
  destruct (artifact_view_holds_image _ R) as (A & _ & N).
  split; [reflexivity|].
  split; [apply A; reflexivity | apply N; reflexivity].
Defined.

(** X17. A synthesis that settles after a reset leaves a world with no
    result and a view other than the input one: whether the image
    loaded or not, none of the four screens is rendered, and nothing is
    persisted. *)
Theorem late_synthesis_after_reset_shows_nothing (w : World) (o : Synthesis) :
  0 < syntheses w ->
  let w' := apply (ESynthesis o) (apply EReset w) in
  enabled (apply EReset w) (ESynthesis o) = true
  /\ data (st w') = None
  /\ renders_nothing (st w') = true
  /\ localStorage w' = None.
Proof.
  intros P. cbv zeta. split.
  - unfold enabled, apply, commit. rewrite saveSession_syntheses. simpl.
    apply Nat.ltb_lt. exact P.
  - assert (D : data (st (apply (ESynthesis o) (apply EReset w))) = None).
    { rewrite st_synthesis, st_reset. destruct o; reflexivity. }
    split; [exact D|]. split.
    + rewrite st_synthesis, st_reset. unfold renders_nothing, renders_artifact.
      destruct o; simpl; rewrite ?andb_false_r; reflexivity.
    + unfold apply at 1, commit. rewrite saveSession_slot_none.
      * rewrite handle_slot. exact (slot_reset w).
      * rewrite <- apply_st. exact D.
Qed.

Lemma late_synthesis_after_reset_shows_nothing_witness :
  renders_nothing
    (st (apply (ESynthesis ImageError) (apply EReset synthesis_pending)))
  = true.
Proof.
  destruct (late_synthesis_after_reset_shows_nothing synthesis_pending
              ImageError) as (_ & _ & N & _); [simpl; lia | exact N].
Defined.

(** ** The card *)

Lemma downloads_tracklist (es : list EchoItem) (y : Z) :
  downloads (Card.tracklist es y) = [].
Proof.
  revert y. induction es as [|e r IH]; intros y; [reflexivity|].
  simpl. apply IH.
Qed.

(** X18. [handleDownloadCard] triggers at most one download.  With an
    image, a result and a 2D context there is exactly one: the composite
    card when the image loads and the export succeeds, the raw image
    otherwise.  Without an image, a result or a context there is none. *)
Theorem one_download_per_card
    (ctx_ok image_ok export_ok : bool) (now today : jsstring) (s : State) :
  downloads (Card.handleDownloadCard ctx_ok image_ok export_ok now today s)
  = match synthesisImage s, data s with
    | Some image, Some d =>
        if truthy image && ctx_ok then
          [if image_ok && export_ok
           then Card.DownloadComposite (thematic_key d)
           else Card.DownloadRaw image]
        else []
    | _, _ => []
    end.
Proof.
  unfold Card.handleDownloadCard.
  destruct (synthesisImage s) as [image|]; [|reflexivity].
  destruct (data s) as [d|]; [|reflexivity].
  destruct (truthy image); [|reflexivity].
  destruct ctx_ok; [|reflexivity].
  unfold downloads.
  destruct image_ok, export_ok; cbn [negb andb];
    rewrite ?filter_app; fold (downloads (Card.tracklist (echoes d)
                                            (Card.width + 80 + 80)));
    rewrite ?downloads_tracklist; reflexivity.
Qed.

Lemma baselines_tracklist (es : list EchoItem) (y0 y : Z) :
  In y (text_baselines (Card.tracklist es y0)) ->
  (y0 <= y <= y0 + 80 * Z.of_nat (length es) - 45)%Z.
Proof.
  revert y0. induction es as [|e r IH]; intros y0; [intros []|].
  cbn [Card.tracklist text_baselines flat_map app].
  intros [<-|[<-|H]]; cbn [length]; try lia.
  apply IH in H. lia.
Qed.

Lemma baselines_of_card
    (image_ok export_ok : bool) (now today : jsstring) (s : State)
    (image : jsstring) (d : EchoData) :
  synthesisImage s = Some image ->
  truthy image = true ->
  data s = Some d ->
  text_baselines (Card.handleDownloadCard true image_ok export_ok now today s)
  = if image_ok then
      (Card.width + 80)%Z
      :: text_baselines (Card.tracklist (echoes d) (Card.width + 80 + 80))
      ++ [(Card.height d - 40)%Z]
    else [].
Proof.
  intros I T D. unfold Card.handleDownloadCard. rewrite I, D, T.
  unfold text_baselines.
  destruct image_ok, export_ok; cbn [negb];
    rewrite ?flat_map_app; cbn [flat_map app]; rewrite ?app_nil_r;
    reflexivity.
Qed.

(** X19. Every line of text of the card is drawn with its baseline
    below the image square and above the bottom edge of the canvas,
    however many echoes the result has. *)
Theorem card_text_inside_canvas
    (image_ok export_ok : bool) (now today : jsstring) (s : State)
    (image : jsstring) (d : EchoData) (y : Z) :
  synthesisImage s = Some image ->
  truthy image = true ->
  data s = Some d ->
  In y (text_baselines
          (Card.handleDownloadCard true image_ok export_ok now today s)) ->
  (Card.width < y < Card.height d)%Z.
Proof.
  intros I T D H. rewrite (baselines_of_card _ _ _ _ _ image d I T D) in H.
  destruct image_ok; [|destruct H].
  unfold Card.height, Card.tracklistHeight, Card.width in *.
  destruct H as [<-|H]; [lia|].
  apply in_app_or in H as [H|[<-|[]]]; [|lia].
  apply baselines_tracklist in H. lia.
Qed.

Lemma card_text_inside_canvas_witness :
  (Card.width < 1475 < Card.height sample_data)%Z.
Proof.
  apply (card_text_inside_canvas true true (js "17") (js "1/1/2026")
           artifact_shown sample_url sample_data 1475); try reflexivity.
  simpl. tauto.
Defined.

Lemma last_baseline_tracklist (e : EchoItem) (r : list EchoItem) (y0 : Z) :
  exists above : list Z,
    text_baselines (Card.tracklist (e :: r) y0)
    = above ++ [(y0 + 80 * Z.of_nat (length (e :: r)) - 45)%Z].
Proof.
  revert e y0. induction r as [|e' r' IH]; intros e y0.
  - exists [y0]. cbn [Card.tracklist text_baselines flat_map app length].
    replace (y0 + 80 * Z.of_nat 1 - 45)%Z with (y0 + 35)%Z by lia.
    reflexivity.
  - destruct (IH e' (y0 + 80)%Z) as (above & E).
    exists (y0 :: (y0 + 35)%Z :: above).
    change (text_baselines (Card.tracklist (e :: e' :: r') y0))
      with (y0 :: (y0 + 35)%Z
            :: text_baselines (Card.tracklist (e' :: r') (y0 + 80))).
    rewrite E. cbn [app length].
    replace (y0 + 80 + 80 * Z.of_nat (S (length r')) - 45)%Z
      with (y0 + 80 * Z.of_nat (S (S (length r'))) - 45)%Z by lia.
    reflexivity.
Qed.

(** X20. For a result with at least one echo, the last two lines drawn
    on the card are the creator and year of the last echo, 35 px above
    the bottom edge, and then the footer, 40 px above the bottom edge:
    the footer's baseline is 5 px higher than that of the line before
    it. *)
Theorem footer_above_last_byline
    (export_ok : bool) (now today : jsstring) (s : State)
    (image : jsstring) (d : EchoData) :
  synthesisImage s = Some image ->
  truthy image = true ->
  data s = Some d ->
  echoes d <> [] ->
  exists above : list Z,
    text_baselines (Card.handleDownloadCard true true export_ok now today s)
    = above ++ [(Card.height d - 35)%Z; (Card.height d - 40)%Z].
Proof.
  intros I T D N. rewrite (baselines_of_card _ _ _ _ _ image d I T D).
  destruct (echoes d) as [|e r] eqn:E; [congruence|].
  destruct (last_baseline_tracklist e r (Card.width + 80 + 80)%Z)
    as (above & L).
  exists ((Card.width + 80)%Z :: above). rewrite L.
  cbn [app]. rewrite <- app_assoc. cbn [app].
  replace (Card.width + 80 + 80 + 80 * Z.of_nat (length (e :: r)) - 45)%Z
    with (Card.height d - 35)%Z; [reflexivity|].
  unfold Card.height, Card.tracklistHeight. rewrite E. lia.
Qed.

Lemma footer_above_last_byline_witness :
  exists above : list Z,
    text_baselines
      (Card.handleDownloadCard true true true (js "17") (js "1/1/2026")
         artifact_shown)
    = above ++ [1475%Z; 1470%Z].
Proof.
  apply (footer_above_last_byline true (js "17") (js "1/1/2026")
           artifact_shown sample_url sample_data); try reflexivity.
  discriminate.
Defined.

Lemma drawn_titles_tracklist (es : list EchoItem) (y : Z) :
  drawn_titles (Card.tracklist es y) = map title es.
Proof.
  revert y. induction es as [|e r IH]; intros y; [reflexivity|].
  cbn [Card.tracklist drawn_titles flat_map app map]. f_equal. apply IH.
Qed.

(** X21. When the image loads, the card shows one title row per echo of
    the result, in the order of the result, and no other title. *)
Theorem card_lists_echoes_in_order
    (export_ok : bool) (now today : jsstring) (s : State)
    (image : jsstring) (d : EchoData) :
  synthesisImage s = Some image ->
  truthy image = true ->
  data s = Some d ->
  drawn_titles (Card.handleDownloadCard true true export_ok now today s)
  = map title (echoes d).
Proof.
  intros I T D. unfold Card.handleDownloadCard. rewrite I, D, T.
  unfold drawn_titles.
  destruct export_ok; cbn [negb];
    rewrite ?flat_map_app; cbn [flat_map app]; rewrite ?app_nil_r;
    fold (drawn_titles (Card.tracklist (echoes d) (Card.width + 80 + 80)));
    apply drawn_titles_tracklist.
Qed.

Lemma card_lists_echoes_in_order_witness :
  drawn_titles
    (Card.handleDownloadCard true true true (js "17") (js "1/1/2026")
       artifact_shown)
  = [js "Dusk"; js "Dusk"].
Proof.
  apply (card_lists_echoes_in_order true (js "17") (js "1/1/2026")
           artifact_shown sample_url sample_data); reflexivity.
Defined.

(** ** The community link *)

(** X22. The link of the community card can be built exactly when its
    term is well-formed UTF-16.  With a non-empty search query the link
    is built from that query and does not depend on the input text;
    with an empty one it is built from the input text.  A link that is
    built is the fixed prefix followed by [encodeURIComponent] of the
    term, which holds none of [? & # / =], so the term stays inside the
    one parameter [q]. *)
Theorem reddit_link_shape (d : EchoData) (text : jsstring) :
  present (redditHref d text) = URI.isWellFormed (redditTerm d text)
  /\ (truthy (search_query d) = true ->
      forall other : jsstring,
        redditHref d other = redditHref d text
        /\ present (redditHref d other) = URI.isWellFormed (search_query d))
  /\ (truthy (search_query d) = false ->
      present (redditHref d text) = URI.isWellFormed text)
  /\ (forall url : jsstring,
         URI.codeUnits (redditTerm d text) = true ->
         redditHref d text = Some url ->
         exists encoded : jsstring,
           URI.encodeURIComponent (redditTerm d text) = Some encoded
           /\ url = reddit_url_prefix ++ encoded
           /\ existsb url_delimiter encoded = false).
Proof.
  assert (P : forall t, present (redditHref d t)
                        = URI.isWellFormed (redditTerm d t)).
  { intros t. unfold redditHref. rewrite present_option_map.
    apply encodeURIComponent_defined. }
  split; [apply P|]. split; [|split].
  - intros T other. split.
    + unfold redditHref, redditTerm. rewrite T. reflexivity.
    + rewrite P. unfold redditTerm. rewrite T. reflexivity.
  - intros T. rewrite P. unfold redditTerm. rewrite T. reflexivity.
  - intros url C H. unfold redditHref in H.
    destruct (URI.encodeURIComponent (redditTerm d text)) as [encoded|] eqn:E;
      [|discriminate].
    injection H as <-. exists encoded. split; [reflexivity|].
    split; [reflexivity|].
    apply (encoded_without_delimiter _ _ C E).
Qed.

Lemma reddit_link_shape_witness :
  redditHref sample_data (js "3 AM")
  = Some (js "https://www.reddit.com/search/?q=evening%20quiet")
  /\ redditHref sample_data [55357%N] = redditHref sample_data (js "3 AM")
  /\ present (redditHref no_query_data [55357%N]) = false
  /\ exists encoded : jsstring,
       js "https://www.reddit.com/search/?q=evening%20quiet"
       = reddit_url_prefix ++ encoded
       /\ existsb url_delimiter encoded = false.
Proof.
  destruct (reddit_link_shape sample_data (js "3 AM")) as (_ & I & _ & S).
  destruct (reddit_link_shape no_query_data [55357%N]) as (_ & _ & F & _).
  split; [reflexivity|].
  split; [exact (proj1 (I eq_refl [55357%N]))|].
  split; [rewrite (F eq_refl); reflexivity|].
  destruct (S (js "https://www.reddit.com/search/?q=evening%20quiet")
              eq_refl eq_refl) as (encoded & _ & U & D).
  exists encoded. split; [exact U | exact D].
Defined.

(** ** What events can and cannot do *)

(** X23. The arrow of the input screen is enabled exactly when no
    retrieval is loading and a submit would issue a request: the
    button's own trim test and the guard of [findEcho] agree. *)
Theorem arrow_matches_guard (s : State) :
  arrow_disabled s = loading s || negb (present (snd (findEcho None s))).
Proof.
  unfold arrow_disabled. rewrite truthy_trim, negb_involutive.
  destruct (blank (input s)) eqn:B.
  - rewrite (findEcho_blank s B). reflexivity.
  - rewrite (findEcho_not_blank s B). reflexivity.
Qed.

(** X24. The view changes only in these ways: a fulfilled retrieval
    shows the result screen; synthesize goes from the result screen to
    the synthesizing one; a loaded image shows the artifact screen, a
    failed synthesis the result screen; reset shows the input screen;
    back goes from artifact to result and from result to input.  Typing,
    Drift, the placeholder timer, a submit and a rejected retrieval
    never change the view. *)
Theorem view_transition_table (w : World) (e : Event) :
  enabled w e = true ->
  view (st (apply e w)) <> view (st w) ->
  view_change_allowed e (view (st w)) (view (st (apply e w))) = true.
Proof.
  intros En. rewrite apply_st. destruct e; simpl.
  - intros H. exfalso. apply H. reflexivity.
  - intros H. exfalso. apply H. reflexivity.
  - unfold findEcho.
    destruct (negb (truthy (searchTerm_of None (st w)))
              || negb (truthy (trim (searchTerm_of None (st w)))));
      intros H; exfalso; apply H; reflexivity.
  - destruct r; simpl; intros H; [reflexivity|].
    exfalso. apply H. reflexivity.
  - simpl in En. unfold renders_echo in En.
    apply andb_true_iff in En as [V D].
    unfold generateArtifact. destruct (data (st w)); [|discriminate].
    simpl. rewrite V. reflexivity.
  - destruct o; reflexivity.
  - reflexivity.
  - unfold handleBack. destruct (view (st w)) eqn:V; simpl; rewrite ?V;
      intros H; try reflexivity; exfalso; apply H; reflexivity.
  - intros H. exfalso. apply H. reflexivity.
Qed.

Lemma view_transition_table_witness :
  view (st (apply ESynthesize first_result)) = VSynthesizing
  /\ view_change_allowed ESynthesize VEcho VSynthesizing = true.
Proof.
  split; [reflexivity|].
  apply (view_transition_table first_result ESynthesize);
    [reflexivity | discriminate].
Defined.

(** X25. Only reset drops the result: after any run of events without
    a reset, a world that held a result still holds one. *)
Theorem result_kept_without_reset (w : World) (es : list Event) :
  present (data (st w)) = true ->
  existsb is_reset es = false ->
  present (data (st (run es w))) = true.
Proof.
  revert w. induction es as [|e r IH]; intros w P N; [exact P|].
  simpl in N. apply orb_false_iff in N as [Ne Nr].
  simpl. apply IH; [|exact Nr].
  rewrite apply_st.
  assert (K : data (st (handle e w)) <> None).
  { apply handle_keeps_data.
    - intros ->. discriminate.
    - destruct (data (st w)); [discriminate | discriminate]. }
  destruct (data (st (handle e w))); [reflexivity | congruence].
Qed.

Lemma result_kept_without_reset_witness :
  present
    (data (st (run [EBack; EBack; EChange (js "x"); ESubmit;
                    ERetrieval Rejected]
                   (run to_artifact (mount None)))))
  = true.
Proof.
  apply (result_kept_without_reset (run to_artifact (mount None)));
    reflexivity.
Defined.

(** ** Renders that throw, and the restart after them *)

Lemma st_mount (storage : option Stored) :
  st (mount storage) = restoreSession storage initialState.
Proof. unfold mount, commit. rewrite saveSession_st. reflexivity. Qed.

Lemma render_throws_restored (s : State) :
  render_throws (restored_from s) = render_throws s.
Proof. reflexivity. Qed.

(** A start on the slot of a world that is on screen does not throw. *)
Lemma start_on_live_slot (w : World) :
  reachable w ->
  render_throws (st w) = false ->
  start (localStorage w) = Live (mount (localStorage w)).
Proof.
  intros R Rw. unfold start. rewrite <- st_mount.
  destruct (data (st w)) as [d|] eqn:D.
  - rewrite (mount_of_session w d R D). simpl.
    rewrite render_throws_restored, Rw. reflexivity.
  - pose proof (reachable_in_step w R) as I.
    unfold slot_in_step in I. rewrite D in I. rewrite I. reflexivity.
Qed.

(** X26. When the render that follows an event throws (the result
    screen, with a link term that is not well-formed), no effect runs
    and the slot is exactly the one before the event.  A restart on it
    does not throw; it restores the result, input text and view held
    before that event, or the initial state when no result was held. *)
Theorem render_crash_is_recovered (w : World) (e : Event) :
  reachable w ->
  render_throws (st w) = false ->
  render_throws (st (handle e w)) = true ->
  step e w = Crashed (localStorage w)
  /\ start (localStorage w) = Live (mount (localStorage w))
  /\ st (mount (localStorage w))
     = match data (st w) with
       | Some _ => restored_from (st w)
       | None => initialState
       end.
Proof.
  intros R Rw T.
  split; [apply step_crashed, T|].
  split; [apply start_on_live_slot; assumption|].
  destruct (data (st w)) as [d|] eqn:D.
  - rewrite (mount_of_session w d R D). reflexivity.
  - pose proof (reachable_in_step w R) as I.
    unfold slot_in_step in I. rewrite D in I. rewrite I. reflexivity.
Qed.

Lemma render_crash_is_recovered_witness :
  render_throws
    (st (handle (ERetrieval (Fulfilled unpaired_query_data)) query_pending))
  = true
  /\ step (ERetrieval (Fulfilled unpaired_query_data)) query_pending
     = Crashed None
  /\ start None = Live (mount None).
Proof.
  split; [reflexivity|].
  destruct (render_crash_is_recovered query_pending
              (ERetrieval (Fulfilled unpaired_query_data)))
    as (S & T & _); try reflexivity.
  - apply reachable_run; [apply reach_first | reflexivity].
  - split; [exact S | exact T].
Defined.

(** X27. Every world that is on screen, reached through renders that
    do not throw, restarts, and restarts after a render that threw, is
    a reachable world; its render does not throw, and a restart on its
    slot does not throw either.  The invariants of the reachable worlds
    therefore hold of every world on screen. *)
Theorem live_worlds_are_reachable (w : World) :
  live w ->
  reachable w
  /\ render_throws (st w) = false
  /\ start (localStorage w) = Live (mount (localStorage w)).
Proof.
  intros L.
  assert (H : reachable w /\ render_throws (st w) = false).
  { induction L as [|w e w' _ [IHr IHt] En S
                    |w w' _ [IHr IHt] S
                    |w e storage w' _ [IHr IHt] En S T].
    - split; [apply reach_first | reflexivity].
    - unfold step in S.
      destruct (render_throws (st (handle e w))) eqn:Re; [discriminate|].
      injection S as <-. split.
      + apply reach_event; assumption.
      + fold (apply e w). rewrite render_throws_apply. exact Re.
    - unfold start in S.
      destruct (render_throws (restoreSession (localStorage w) initialState))
        eqn:Re; [discriminate|].
      injection S as <-. split.
      + apply reach_restart, IHr.
      + rewrite st_mount. exact Re.
    - destruct (render_throws (st (handle e w))) eqn:Re.
      + rewrite (step_crashed e w Re) in S. injection S as <-.
        unfold start in T.
        destruct (render_throws (restoreSession (localStorage w) initialState))
          eqn:Rs; [discriminate|].
        injection T as <-. split.
        * apply reach_restart, IHr.
        * rewrite st_mount. exact Rs.
      + rewrite (step_live e w Re) in S. discriminate. }
  destruct H as [R T]. split; [exact R|]. split; [exact T|].
  apply start_on_live_slot; assumption.
Qed.

Lemma live_worlds_are_reachable_witness :
  let before := run [EBack; ESubmit] first_result in
  let w := mount (localStorage before) in
  step (ERetrieval (Fulfilled unpaired_query_data)) before
  = Crashed (localStorage before)
  /\ reachable w
  /\ data (st w) = Some sample_data
  /\ render_throws (st w) = false.
Proof.
  cbv zeta.
  pose (w1 := apply (EChange (js "3 AM")) (mount None)).
  pose (w2 := apply ESubmit w1).
  pose (w3 := apply (ERetrieval (Fulfilled sample_data)) w2).
  pose (w4 := apply EBack w3).
  pose (w5 := apply ESubmit w4).
  assert (L1 : live w1).
  { apply (live_step (mount None) (EChange (js "3 AM")));
      [apply live_first | reflexivity | reflexivity]. }
  assert (L2 : live w2).
  { apply (live_step w1 ESubmit); [exact L1 | reflexivity | reflexivity]. }
  assert (L3 : live w3).
  { apply (live_step w2 (ERetrieval (Fulfilled sample_data)));
      [exact L2 | reflexivity | reflexivity]. }
  assert (L4 : live w4).
  { apply (live_step w3 EBack); [exact L3 | reflexivity | reflexivity]. }
  assert (L5 : live w5).
  { apply (live_step w4 ESubmit); [exact L4 | reflexivity | reflexivity]. }
  assert (L : live (mount (localStorage (run [EBack; ESubmit] first_result)))).
  { apply (live_after_crash w5 (ERetrieval (Fulfilled unpaired_query_data))
             (localStorage w5));
      [exact L5 | reflexivity | reflexivity | reflexivity]. }
  destruct (live_worlds_are_reachable _ L) as (R & T & _).
  split; [reflexivity|]. split; [exact R|].
  split; [reflexivity | exact T].
Defined.
